(** * Credential lifecycle and reminder scheduling of the Telegram reminder bot

    A shallow embedding of
    - [validation.py]               (the strict token validator, the
                                     expiry filler),
    - [core/user_tokens.py]         (refresh, get-valid, revoke, delete),
    - [core/auth.py]                (the authentication check),
    - [managers/storage_manager.py] (the tables the above use, the
                                     conversation history and its rotation),
    - [managers/schedule_manager.py] and [managers/adapters.py]
      (the cron job registry, the operations that add a reminder and create
      a calendar event),
    - [ui/telegram/validator.py] and [ui/telegram/handlers.py]
      (the chat commands that add and delete a reminder and create an
      event),
    - [utils.py]                    ([pick] and the retrying transport),
    followed by the properties the specification states about them and by
    further properties of the same code.

    Python's [async]/[await] is sequential in every function modelled here
    (each [await] is waited for before the next statement), so a coroutine
    is a state transformer that may raise. *)

From Stdlib Require Import ZArith Ascii String List Lia.
From stdpp Require Import base option gmap strings list pretty.

Local Open Scope Z_scope.
Local Open Scope string_scope.

(** ** Python values, exceptions and the state-and-exception monad *)

Module Py.

(** The values a token dictionary or a provider response holds in the
    fields the code interprets: [None], an [int], a [str].  (Floats,
    booleans and nested containers only ever travel through untouched and
    are not modelled.) *)
Inductive value : Type :=
| PNone
| PInt (n : Z)
| PStr (s : string).

#[global] Instance value_eq_dec : EqDecision value.
Proof. solve_decision. Defined.

(** [dict[str, Any]] *)
Abbreviation dict := (gmap string value).

(** [bool(v)] *)
Definition truthy (v : value) : bool :=
  match v with
  | PNone => false
  | PInt n => negb (Z.eqb n 0)
  | PStr s => negb (String.eqb s EmptyString)
  end.

(** [bool(d)] for a dictionary: non-empty. *)
Definition dict_truthy (d : dict) : bool := bool_decide (d ≠ ∅).

(** [bool(d)] for [dict | None]. *)
Definition opt_truthy (o : option dict) : bool :=
  match o with
  | Some d => dict_truthy d
  | None => false
  end.

(** [d.get(k)] and [d.get(k, dflt)] *)
Definition get (d : dict) (k : string) : value := default PNone (d !! k).
Definition get_default (d : dict) (k : string) (dflt : value) : value :=
  default dflt (d !! k).

(** [str(v)], as an f-string renders it. *)
Definition str (v : value) : string :=
  match v with
  | PNone => "None"
  | PInt n => pretty n
  | PStr s => s
  end.

(** [type(v).__name__] *)
Definition type_name (v : value) : string :=
  match v with
  | PNone => "NoneType"
  | PInt _ => "int"
  | PStr _ => "str"
  end.

(** The exceptions the modelled code can meet; every one of them is a
    subclass of [Exception]. *)
Inductive exn : Type :=
| ValueError (msg : string)
| KeyError (key : string)
| TypeError (msg : string)
| JSONDecodeError (msg : string)
| TransportError (msg : string)      (* httpx.ConnectError, TimeoutException, ... *)
| ValidationError (msg : string)     (* ui.base.ValidationError and subclasses *)
| OtherError (msg : string).         (* any other [Exception] *)

(** [str(e)] *)
Definition exn_str (e : exn) : string :=
  match e with
  | ValueError m | TypeError m | JSONDecodeError m
  | TransportError m | ValidationError m | OtherError m => m
  | KeyError k => "'" ++ k ++ "'"
  end.

(** The one-character string holding a double quote. *)
Definition dquote : string := String (ascii_of_nat 34) EmptyString.

Definition is_ValueError (e : exn) : bool :=
  match e with ValueError _ => true | _ => false end.

Inductive result (A : Type) : Type :=
| Ok (a : A)
| Raise (e : exn).
Arguments Ok {A} a.
Arguments Raise {A} e.

Definition is_ok {A} (r : result A) : bool :=
  match r with Ok _ => true | Raise _ => false end.

(** A computation over a state [S] that returns or raises. *)
Definition M (S A : Type) : Type := S -> result A * S.

Definition ret {S A} (a : A) : M S A := fun s => (Ok a, s).
Definition raise {S A} (e : exn) : M S A := fun s => (Raise e, s).
Definition bind {S A B} (m : M S A) (k : A -> M S B) : M S B :=
  fun s => match m s with
           | (Ok a, s') => k a s'
           | (Raise e, s') => (Raise e, s')
           end.

(** [try: body / except Exception as e: handler(e)] *)
Definition try_except {S A} (body : M S A) (handler : exn -> M S A) : M S A :=
  fun s => match body s with
           | (Ok a, s') => (Ok a, s')
           | (Raise e, s') => handler e s'
           end.

(** [try: body / except ValueError as e: handler(e)]: any other exception
    passes through. *)
Definition try_except_ValueError {S A}
    (body : M S A) (handler : exn -> M S A) : M S A :=
  fun s => match body s with
           | (Ok a, s') => (Ok a, s')
           | (Raise e, s') =>
               if is_ValueError e then handler e s' else (Raise e, s')
           end.

(** [d[k]] *)
Definition getitem {S} (d : dict) (k : string) : M S value :=
  match d !! k with
  | Some v => ret v
  | None => raise (KeyError k)
  end.

Definition unsupported (op : string) (a b : value) : exn :=
  TypeError ("unsupported operand type(s) for " ++ op ++ ": '"
             ++ type_name a ++ "' and '" ++ type_name b ++ "'").

Definition not_supported (op : string) (a b : value) : exn :=
  TypeError ("'" ++ op ++ "' not supported between instances of '"
             ++ type_name a ++ "' and '" ++ type_name b ++ "'").

Definition lift_result {S A} (r : result A) : M S A := fun s => (r, s).

(** [a + b], [a - b] and [a < b] on values; only integers qualify. *)
Definition add_values (a b : value) : result value :=
  match a, b with
  | PInt x, PInt y => Ok (PInt (x + y))
  | _, _ => Raise (unsupported "+" a b)
  end.

Definition sub_values (a b : value) : result value :=
  match a, b with
  | PInt x, PInt y => Ok (PInt (x - y))
  | _, _ => Raise (unsupported "-" a b)
  end.

Definition lt_values (a b : value) : result bool :=
  match a, b with
  | PInt x, PInt y => Ok (Z.ltb x y)
  | _, _ => Raise (not_supported "<" a b)
  end.

Definition add {S} (a b : value) : M S value := lift_result (add_values a b).
Definition sub {S} (a b : value) : M S value := lift_result (sub_values a b).
Definition lt {S} (a b : value) : M S bool := lift_result (lt_values a b).

Declare Scope py_scope.
Delimit Scope py_scope with py.
Notation "'let*' x ':=' c1 'in' c2" := (bind c1 (fun x => c2))
  (at level 10, x name, c1 at level 100, c2 at level 200) : py_scope.
Notation "c1 ;;; c2" := (bind c1 (fun _ => c2))
  (at level 100, c2 at level 200, right associativity) : py_scope.

End Py.

Import Py.
Local Open Scope py_scope.

(** ** The credential side: storage, validator, refresher, lifecycle *)

Module Tokens.

(** An outgoing [client.post]: the URL, the form body ([data=]), the query
    string ([params=]) and the headers. *)
Record request : Type := {
  url : string;
  data : list (string * value);
  params : list (string * value);
  headers : list (string * string)
}.

(** What the code reads of an [httpx.Response]: [status_code], [text] and
    [json()], which raises when the body is not JSON. *)
Record response : Type := {
  status_code : Z;
  text : string;
  json : option dict
}.

(** Entries of the two functions whose calls the specification counts, as
    a test double would record them, and the deletion of a row of the
    table, so that the trace shows in which order they happened (ghost
    state: no code reads it). *)
Inductive call : Type :=
| Refresh (user_id : string)
| Revoke
| Deleted (user_id : string).

#[global] Instance call_eq_dec : EqDecision call.
Proof. solve_decision. Defined.

(** Everything outside the functions: the [user_tokens] table, how often
    the clock has been read, the requests sent, the logger's lines
    (message, level), and the ghost call trace. *)
Record world : Type := {
  user_tokens : gmap string dict;
  clock_reads : nat;
  sent : list request;
  log : list (string * string);
  calls : list call
}.

Definition set_user_tokens (f : gmap string dict -> gmap string dict)
    (w : world) : world :=
  {| user_tokens := f (user_tokens w); clock_reads := clock_reads w;
     sent := sent w; log := log w; calls := calls w |}.

(** The environment: the clock ([clock n] is what the [n]-th call of
    [int(time())] returns), the identity provider ([provider n rq] answers
    the [n]-th request; [Raise] is a transport failure) and the client
    credential pair of [config_manager]. *)
Record env : Type := {
  clock : nat -> Z;
  provider : nat -> request -> result response;
  google_oauth2_client_id : string;
  google_oauth2_secret : string
}.

(** *** managers/storage_manager.py, the [user_tokens] table

    Each method opens its own session: what it returns is a fresh copy of
    the stored JSON, and what it stores is a copy of its argument. *)
Module StorageManager.

Definition save_user_token (user_id : string) (token_data : dict)
  : M world unit :=
  fun w => (Ok tt, set_user_tokens <[user_id := token_data]> w).

Definition get_user_token (user_id : string) : M world (option dict) :=
  fun w => (Ok (user_tokens w !! user_id), w).

(** [session.delete(user_token)] and the commit are one step; the ghost
    trace records it. *)
Definition delete_user_token (user_id : string) : M world bool :=
  fun w => match user_tokens w !! user_id with
           | Some _ =>
               (Ok true,
                {| user_tokens := delete user_id (user_tokens w);
                   clock_reads := clock_reads w;
                   sent := sent w; log := log w;
                   calls := calls w ++ [Deleted user_id] |})
           | None => (Ok false, w)
           end.

End StorageManager.

(** [logger(message, level)] *)
Definition logger (message level : string) : M world unit :=
  fun w => (Ok tt,
            {| user_tokens := user_tokens w; clock_reads := clock_reads w;
               sent := sent w; log := log w ++ [(message, level)];
               calls := calls w |}).

Definition called (c : call) : M world unit :=
  fun w => (Ok tt,
            {| user_tokens := user_tokens w; clock_reads := clock_reads w;
               sent := sent w; log := log w; calls := calls w ++ [c] |}).

(** [response.json()] *)
Definition response_json {S} (r : response) : M S dict :=
  match json r with
  | Some d => ret d
  | None => raise (JSONDecodeError "Expecting value")
  end.

(** A function that mutates the dictionary it was handed runs over the
    pair of that dictionary object and the world: the caller sees the
    mutations whether the function returns or raises. *)
Abbreviation frame := (dict * world)%type.

Definition lift {A} (m : M world A) : M frame A :=
  fun '(d, w) => let '(r, w') := m w in (r, (d, w')).

(** [token_data.get(k)], [token_data[k]], [token_data[k] = v] and the
    object itself. *)
Definition token_get (k : string) : M frame value :=
  fun '(d, w) => (Ok (get d k), (d, w)).
Definition token_getitem (k : string) : M frame value :=
  fun '(d, w) => getitem d k (d, w).
Definition token_setitem (k : string) (v : value) : M frame unit :=
  fun '(d, w) => (Ok tt, (<[k := v]> d, w)).
Definition token_data : M frame dict :=
  fun '(d, w) => (Ok d, (d, w)).

(** *** validation.py

    [now] is what the function's one call of [int(time())] returns. *)

Definition is_token_valid (now : Z) (token_data : dict) : result bool :=
  if negb (dict_truthy token_data) then Ok false
  else
    let expires_at := get token_data "expires_at" in
    if negb (truthy expires_at) then Ok false
    else
      let current_time := now in
      lt_values (PInt current_time) expires_at.

Section WithEnv.
Variable E : env.

(** [int(time())] *)
Definition time : M world Z :=
  fun w => (Ok (clock E (clock_reads w)),
            {| user_tokens := user_tokens w;
               clock_reads := S (clock_reads w);
               sent := sent w; log := log w; calls := calls w |}).

(** [await client.post(...)] *)
Definition post (rq : request) : M world response :=
  fun w => (provider E (length (sent w)) rq,
            {| user_tokens := user_tokens w; clock_reads := clock_reads w;
               sent := sent w ++ [rq]; log := log w; calls := calls w |}).

(** *** core/user_tokens.py *)

Definition token_request (refresh_token : value) : request :=
  {| url := "https://oauth2.googleapis.com/token";
     data := [("client_id", PStr (google_oauth2_client_id E));
              ("client_secret", PStr (google_oauth2_secret E));
              ("refresh_token", refresh_token);
              ("grant_type", PStr "refresh_token")];
     params := [];
     headers := [] |}.

Definition refresh_access_token (user_id : string) : M frame dict :=
  lift (called (Refresh user_id)) ;;;
  let* refresh_token := token_get "refresh_token" in
  if negb (truthy refresh_token) then
    lift (logger ("No refresh token available for user " ++ user_id) "error") ;;;
    raise (ValueError "No refresh token available")
  else
    lift (logger ("Refreshing access token for user " ++ user_id) "info") ;;;
    let* expires_at := token_get "expires_at" in
    let* now := lift time in
    lift (logger ("Token expires_at: " ++ str expires_at
                  ++ ", current time: " ++ pretty now) "debug") ;;;
    lift (logger ("Sending token refresh request to Google OAuth for user "
                  ++ user_id) "debug") ;;;
    let* response := lift (post (token_request refresh_token)) in
    if negb (Z.eqb (status_code response) 200) then
      lift (logger ("Token refresh failed for user " ++ user_id ++ ": "
                    ++ pretty (status_code response) ++ " - "
                    ++ text response) "error") ;;;
      raise (ValueError ("Failed to refresh token: " ++ text response))
    else
      lift (logger ("Token refresh successful for user " ++ user_id) "info") ;;;
      let* new_token_data := response_json response in
      let* access_token := getitem new_token_data "access_token" in
      token_setitem "access_token" access_token ;;;
      let* now := lift time in
      let* expiry :=
        add (PInt now) (get_default new_token_data "expires_in" (PInt 3600)) in
      token_setitem "expires_at" expiry ;;;
      match new_token_data !! "refresh_token" with
      | Some new_refresh_token =>
          token_setitem "refresh_token" new_refresh_token ;;;
          lift (logger ("New refresh token received for user " ++ user_id)
                       "debug")
      | None => ret tt
      end ;;;
      lift (logger ("Saving refreshed token to database for user " ++ user_id)
                   "debug") ;;;
      let* td := token_data in
      lift (StorageManager.save_user_token user_id td) ;;;
      let* new_expires_at := token_getitem "expires_at" in
      lift (logger ("Token refreshed and saved successfully for user "
                    ++ user_id ++ ". New expires_at: " ++ str new_expires_at)
                   "info") ;;;
      token_data.

(** [try: token_data = await refresh_access_token(..., token_data, ...)]:
    runs the refresher on the caller's dictionary object and hands back
    the outcome together with that object as the refresher left it. *)
Definition try_refresh (user_id : string) (token_data : dict)
  : M world (result dict * dict) :=
  fun w => let '(r, (d', w')) := refresh_access_token user_id (token_data, w) in
           (Ok (r, d'), w').

Definition get_valid_token (user_id : string) : M world (option dict) :=
  logger ("Getting valid token for user " ++ user_id) "debug" ;;;
  let* stored := StorageManager.get_user_token user_id in
  if negb (opt_truthy stored) then
    logger ("No token found in database for user " ++ user_id) "warning" ;;;
    ret None
  else
    let token_data := default ∅ stored in
    let expires_at := get_default token_data "expires_at" (PInt 0) in
    let* current_time := time in
    if truthy expires_at then
      let* time_until_expiry := sub expires_at (PInt current_time) in
      logger ("Token for user " ++ user_id ++ " expires in "
              ++ str time_until_expiry ++ " seconds") "debug" ;;;
      let* soon := lt expires_at (PInt (current_time + 300)) in
      if soon then
        logger ("Token for user " ++ user_id
                ++ " is expired or expiring soon (within 5 minutes), refreshing...")
               "info" ;;;
        let* outcome := try_refresh user_id token_data in
        match outcome with
        | (Ok refreshed, _) => ret (Some refreshed)
        | (Raise e, token_data) =>
            logger ("Failed to refresh token for user " ++ user_id ++ ": "
                    ++ exn_str e) "error" ;;;
            let* dead := lt time_until_expiry (PInt 0) in
            if dead then
              logger "Token is definitely expired and refresh failed. Returning None."
                     "error" ;;;
              ret None
            else
              logger ("Refresh failed but token might still be marginally valid for "
                      ++ str time_until_expiry ++ "s. Returning old token.")
                     "warning" ;;;
              ret (Some token_data)
        end
      else
        logger ("Token for user " ++ user_id ++ " is still valid") "debug" ;;;
        ret (Some token_data)
    else
      logger ("No expires_at timestamp in token for user " ++ user_id
              ++ ", assuming valid") "warning" ;;;
      ret (Some token_data).

Definition revoke_request (access_token : value) : request :=
  {| url := "https://oauth2.googleapis.com/revoke";
     data := [];
     params := [("token", access_token)];
     headers := [("content-type", "application/x-www-form-urlencoded")] |}.

Definition revoke_google_token (token_data : dict) : M world bool :=
  called Revoke ;;;
  let access_token := get token_data "access_token" in
  if negb (truthy access_token) then
    logger "No access token to revoke" "warning" ;;;
    ret false
  else
    logger "Revoking Google OAuth token" "info" ;;;
    try_except
      (let* response := post (revoke_request access_token) in
       if Z.eqb (status_code response) 200 then
         logger "Token revoked successfully" "info" ;;;
         ret true
       else if Z.eqb (status_code response) 400 then
         logger "Token was already invalid or not revocable (400), considering revoked"
                "info" ;;;
         ret true
       else
         logger ("Token revocation failed: " ++ pretty (status_code response)
                 ++ " - " ++ text response) "warning" ;;;
         ret false)
      (fun e =>
         logger ("Error revoking token: " ++ exn_str e) "error" ;;;
         ret false).

Definition delete_user_token (user_id : string) : M world bool :=
  logger ("Deleting token for user " ++ user_id) "info" ;;;
  let* token_data := StorageManager.get_user_token user_id in
  (if opt_truthy token_data then
     revoke_google_token (default ∅ token_data) ;;; ret tt
   else ret tt) ;;;
  let* success := StorageManager.delete_user_token user_id in
  (if success : bool then
     logger ("Token deleted successfully for user " ++ user_id) "info"
   else
     logger ("No token found to delete for user " ++ user_id) "warning") ;;;
  ret success.

(** [require_user_token] and [get_user_token] of core/user_tokens.py. *)

Definition get_user_token (user_id : string) : M world (option dict) :=
  StorageManager.get_user_token user_id.

Definition require_user_token (user_id : string) : M world dict :=
  let* token_data := StorageManager.get_user_token user_id in
  if negb (opt_truthy token_data) then
    raise (ValueError "User not authenticated")
  else ret (default ∅ token_data).

(** *** validation.py, run against the clock

    [is_token_valid] as the coroutines call it: the clock is read only on
    the path that reaches [int(time())]. *)

Definition is_token_valid_now (token_data : dict) : M world bool :=
  if negb (dict_truthy token_data) then ret false
  else
    let expires_at := get token_data "expires_at" in
    if negb (truthy expires_at) then ret false
    else
      let* current_time := time in
      lt (PInt current_time) expires_at.

(** [ensure_token_expiry] assigns into the dictionary it was given and
    returns that same object; the result is the object's content.  When the
    addition raises, nothing has been assigned. *)
Definition ensure_token_expiry (token : dict) : M world dict :=
  match token !! "expires_at", token !! "expires_in" with
  | None, Some expires_in =>
      let* now := time in
      let* expires_at := add (PInt now) expires_in in
      ret (<["expires_at" := expires_at]> token)
  | _, _ => ret token
  end.

(** *** core/auth.py *)

Definition is_user_authenticated (user_id : string) : M world bool :=
  let* token_data := StorageManager.get_user_token user_id in
  if negb (opt_truthy token_data) then ret false
  else is_token_valid_now (default ∅ token_data).

(** *** managers/adapters.py, [AiAgentAdapter.create_calendar_event]

    [google_create access_token event] stands for
    [GoogleServicesManager.create_calendar_event] called with the access
    token and the five event arguments, which the adapter passes through
    untouched (bundled here as [event]).  The adapter returns the created
    event or a message. *)
Section Calendar.
Variable event : Type.
Variable google_create : value -> event -> M world dict.
Variable event_name : event -> string.

Definition adapter_create_calendar_event (user_id : string) (ev : event)
  : M world (dict + string) :=
  logger ("AiAgentAdapter: Creating event for user " ++ user_id ++ ": "
          ++ dquote ++ event_name ev ++ dquote) "info" ;;;
  let* token_data := StorageManager.get_user_token user_id in
  if negb (opt_truthy token_data) then
    logger ("AiAgentAdapter: User token not found for user " ++ user_id)
           "error" ;;;
    ret (inr "Failed to create event: User not authenticated.")
  else
    let access_token := get (default ∅ token_data) "access_token" in
    if negb (truthy access_token) then
      logger ("AiAgentAdapter: Access token not found for user " ++ user_id)
             "error" ;;;
      ret (inr "Failed to create event: Access token not found.")
    else
      let* result := google_create access_token ev in
      logger ("AiAgentAdapter: Event created for user " ++ user_id) "info" ;;;
      ret (inl result).

(** *** ui/telegram/handlers.py, [create_event]

    The chat command's path to the same calendar call.  The handler takes
    the token from [user_tokens.get_valid_token] of the module
    [ui.telegram.user_tokens] ([from ui.telegram import user_tokens]),
    which is not in the source tree: it is not modelled, and not taken to
    be [get_valid_token] of core/user_tokens.py.  The variable
    [telegram_get_valid_token] stands for whatever that function does with
    the storage manager, the user and the logger it is called with; what
    [create_event] does is stated for every such function.
    [google_create] is here the call with the end time and time zone the
    handler computes. *)
Variable telegram_get_valid_token : string -> M world (option dict).

Definition handlers_create_event (google_sub : string) (ev : event)
  : M world dict :=
  let* token_data := telegram_get_valid_token google_sub in
  if negb (opt_truthy token_data) then
    raise (ValueError "User not authenticated")
  else
    let access_token := get (default ∅ token_data) "access_token" in
    if negb (truthy access_token) then
      raise (ValueError "Access token not found")
    else google_create access_token ev.

End Calendar.

End WithEnv.

Arguments adapter_create_calendar_event {event} google_create event_name
  user_id ev.
Arguments handlers_create_event {event} google_create
  telegram_get_valid_token google_sub ev.

End Tokens.

(** ** The scheduling side: reminders table, job registry, adapters *)

Module Schedule.

(** *** Text helpers of Python's [str] *)

(** [c.isspace()] on the ASCII range. *)
Definition is_space (c : ascii) : bool :=
  let n := nat_of_ascii c in
  ((9 <=? n)%nat && (n <=? 13)%nat) || ((28 <=? n)%nat && (n <=? 32)%nat).

(** [s.split()]: the maximal runs of non-space characters. *)
Fixpoint split_go (cur : string) (s : string) : list string :=
  match s with
  | EmptyString => if String.eqb cur EmptyString then [] else [cur]
  | String c s' =>
      if is_space c then
        if String.eqb cur EmptyString then split_go EmptyString s'
        else cur :: split_go EmptyString s'
      else split_go (cur ++ String c EmptyString) s'
  end.
Definition split (s : string) : list string := split_go EmptyString s.

(** [' '.join(l)] *)
Fixpoint join (l : list string) : string :=
  match l with
  | [] => EmptyString
  | [x] => x
  | x :: l' => x ++ " " ++ join l'
  end.

(** The white-space characters of [str.isspace()] beyond ASCII, in the
    UTF-8 bytes that a string is made of here: U+0085 and U+00A0 take two
    bytes; U+1680, U+2000 to U+200A, U+2028, U+2029, U+202F, U+205F and
    U+3000 take three. *)
Definition is_space2 (c1 c2 : ascii) : bool :=
  let n1 := nat_of_ascii c1 in
  let n2 := nat_of_ascii c2 in
  (n1 =? 194)%nat && ((n2 =? 133)%nat || (n2 =? 160)%nat).

Definition is_space3 (c1 c2 c3 : ascii) : bool :=
  let n1 := nat_of_ascii c1 in
  let n2 := nat_of_ascii c2 in
  let n3 := nat_of_ascii c3 in
  ((n1 =? 225)%nat && ((n2 =? 154)%nat && (n3 =? 128)%nat))
  || ((n1 =? 226)%nat
      && (((n2 =? 128)%nat
           && (((128 <=? n3)%nat && (n3 <=? 138)%nat)
               || (n3 =? 168)%nat || (n3 =? 169)%nat || (n3 =? 175)%nat))
          || ((n2 =? 129)%nat && (n3 =? 159)%nat)))
  || ((n1 =? 227)%nat && ((n2 =? 128)%nat && (n3 =? 128)%nat)).

(** [s.strip() == '']: [s] is made of white-space characters only. *)
Fixpoint blank (s : string) : bool :=
  match s with
  | EmptyString => true
  | String c1 s1 =>
      if is_space c1 then blank s1
      else
        match s1 with
        | EmptyString => false
        | String c2 s2 =>
            if is_space2 c1 c2 then blank s2
            else
              match s2 with
              | EmptyString => false
              | String c3 s3 =>
                  if is_space3 c1 c2 c3 then blank s3 else false
              end
        end
  end.

(** [bool(s.strip())]: some character is not white space. *)
Definition strip_truthy (s : string) : bool := negb (blank s).

(** *** The cron trigger *)

(** The five fields of a crontab line. *)
Record trigger : Type := {
  minute : string; hour : string; day : string;
  month : string; day_of_week : string
}.

(** One row of the [reminders] table, as [Reminder.to_dict] shows it. *)
Record reminder : Type := {
  id : Z;
  user_id : string;
  cron : string;
  message : string
}.

(** A registered job: the trigger and the arguments [_job_wrapper] is
    called with when it fires. *)
Record job : Type := {
  job_trigger : trigger;
  job_args : string * string * string
}.

(** The notification callback: [cb n user_id text] is the outcome of the
    [n]-th time it is awaited. *)
Abbreviation callback_fn := (nat -> string -> string -> result unit).

(** The loader handed to [ScheduleManager]: given the rows of the table,
    the list it returns (or the exception it raises). *)
Abbreviation loader_fn := (list reminder -> result (list reminder)).

(** The [reminders] table with its autoincrement counter, the attributes of
    the [ScheduleManager] object ([callback], [on_start], the scheduler's
    job store and [running] flag), the logger's lines, and the ghost list
    of what the callback was awaited with. *)
Record state : Type := {
  reminders : list reminder;
  next_id : Z;
  callback : option callback_fn;
  on_start : option loader_fn;
  jobs : gmap string job;
  running : bool;
  log : list (string * string);
  awaited : list (string * string)
}.

Definition logger (msg level : string) : M state unit :=
  fun s => (Ok tt,
            {| reminders := reminders s; next_id := next_id s;
               callback := callback s; on_start := on_start s;
               jobs := jobs s; running := running s;
               log := log s ++ [(msg, level)]; awaited := awaited s |}).

Definition set_jobs (f : gmap string job -> gmap string job) (s : state)
  : state :=
  {| reminders := reminders s; next_id := next_id s;
     callback := callback s; on_start := on_start s;
     jobs := f (jobs s); running := running s;
     log := log s; awaited := awaited s |}.

(** *** managers/storage_manager.py, the [reminders] table *)
Module StorageManager.

(** [add_reminder]: the id of the new row is the one the database hands
    out for the primary key, [next_id].  That the next id is then one
    more is the counter of an autoincrement key; a table that gives the
    highest id out again once its row is deleted (SQLite's plain rowid)
    differs from it in runs that add after such a delete.  Nothing below
    is stated about such runs. *)
Definition add_reminder (user_id cron message : string) : M state Z :=
  fun s => (Ok (next_id s),
            {| reminders := reminders s ++
                 [{| id := next_id s; user_id := user_id;
                     cron := cron; message := message |}];
               next_id := next_id s + 1;
               callback := callback s; on_start := on_start s;
               jobs := jobs s; running := running s;
               log := log s; awaited := awaited s |}).

Definition get_all_reminders : loader_fn := fun rows => Ok rows.

(** [get_reminders(user_id)]: the rows of one owner. *)
Definition get_reminders (owner : string) : M state (list reminder) :=
  fun s => (Ok (List.filter (fun r => String.eqb (user_id r) owner)
                            (reminders s)), s).

(** [delete_reminder(reminder_id)]: the row with that primary key, if any. *)
Definition delete_reminder (reminder_id : Z) : M state bool :=
  fun s =>
    if existsb (fun r => Z.eqb (id r) reminder_id) (reminders s) then
      (Ok true,
       {| reminders :=
            List.filter (fun r => negb (Z.eqb (id r) reminder_id)) (reminders s);
          next_id := next_id s;
          callback := callback s; on_start := on_start s;
          jobs := jobs s; running := running s;
          log := log s; awaited := awaited s |})
    else (Ok false, s).

End StorageManager.

Section WithCron.

(** Whether the five fields of an expression are well-formed cron fields
    (lists, ranges, steps, names): the field grammar of the APScheduler
    package, which is not part of the repository. *)
Variable fields_ok : list string -> bool.

(** Modelled from the spec: [CronTrigger.from_crontab] belongs to the
    APScheduler package, which is not part of the repository.  It
    accepts "a 5-field cron expression (minute, hour, day-of-month,
    month, day-of-week)": the expression is split at white space, must
    have exactly five fields, and each field must be well-formed, which
    [fields_ok] decides; anything else raises [ValueError]. *)
Definition from_crontab (expr : string) : result trigger :=
  match split expr with
  | [mi; ho; da; mo; dw] =>
      if fields_ok [mi; ho; da; mo; dw] then
        Ok {| minute := mi; hour := ho; day := da;
              month := mo; day_of_week := dw |}
      else Raise (ValueError "Unrecognized expression for a field")
  | values =>
      Raise (ValueError ("Wrong number of fields; got "
                         ++ pretty (length values) ++ ", expected 5"))
  end.

(** *** managers/schedule_manager.py *)

Definition set_callback (cb : callback_fn) : M state unit :=
  fun s => (Ok tt,
            {| reminders := reminders s; next_id := next_id s;
               callback := Some cb; on_start := on_start s;
               jobs := jobs s; running := running s;
               log := log s; awaited := awaited s |}).

(** [await self.callback(user_id, formatted_message)] *)
Definition await_callback (cb : callback_fn) (user_id text : string)
  : M state unit :=
  fun s => (cb (length (awaited s)) user_id text,
            {| reminders := reminders s; next_id := next_id s;
               callback := callback s; on_start := on_start s;
               jobs := jobs s; running := running s;
               log := log s; awaited := awaited s ++ [(user_id, text)] |}).

Definition format_message (message cron : string) : string :=
  "⏰ <b>Periodic Reminder</b>

" ++ message ++ "

🕐 <code>" ++ cron ++ "</code>".

Definition _job_wrapper (user_id message cron : string) : M state unit :=
  fun s =>
    match callback s with
    | Some cb =>
        try_except
          (let formatted_message := format_message message cron in
           await_callback cb user_id formatted_message)
          (fun e => logger ("Error in reminder callback: " ++ exn_str e)
                           "error")
          s
    | None =>
        logger ("Reminder triggered but no callback set. User: " ++ user_id
                ++ ", Message: " ++ message) "warning" s
    end.

(** [self.scheduler.add_job(self._job_wrapper, trigger=trigger,
    args=[user_id, message, cron], id=job_id, replace_existing=True)] *)
Definition add_job (job_id : string) (t : trigger)
    (args : string * string * string) : M state unit :=
  fun s => (Ok tt,
            set_jobs <[job_id := {| job_trigger := t; job_args := args |}]> s).

Definition schedule_job (reminder_id : Z) (user_id cron message : string)
  : M state unit :=
  try_except_ValueError
    (let* trigger := lift_result (from_crontab cron) in
     add_job (pretty reminder_id) trigger (user_id, message, cron) ;;;
     logger ("Scheduled job " ++ pretty reminder_id ++ " for user " ++ user_id
             ++ " with cron " ++ cron) "info")
    (fun e => logger ("Failed to schedule job " ++ pretty reminder_id ++ ": "
                      ++ exn_str e) "error").

(** [for reminder in reminders: self.schedule_job(...)] *)
Fixpoint schedule_all (l : list reminder) : M state unit :=
  match l with
  | [] => ret tt
  | reminder :: rest =>
      schedule_job (id reminder) (user_id reminder) (cron reminder)
                   (message reminder) ;;;
      schedule_all rest
  end.

(** What the loop of [start] has logged once it is through the rows [l]:
    for each row in turn, that its job was scheduled or why it was not. *)
Definition loading_lines (l : list reminder) : list (string * string) :=
  flat_map (fun r =>
              match from_crontab (cron r) with
              | Ok _ =>
                  [("Scheduled job " ++ pretty (id r) ++ " for user "
                    ++ user_id r ++ " with cron " ++ cron r, "info")]
              | Raise e =>
                  [("Failed to schedule job " ++ pretty (id r) ++ ": "
                    ++ exn_str e, "error")]
              end) l.

Definition call_loader (f : loader_fn) : M state (list reminder) :=
  fun s => (f (reminders s), s).

Definition scheduler_start : M state unit :=
  fun s => (Ok tt,
            {| reminders := reminders s; next_id := next_id s;
               callback := callback s; on_start := on_start s;
               jobs := jobs s; running := true;
               log := log s; awaited := awaited s |}).

Definition start : M state unit :=
  (fun s =>
     match on_start s with
     | Some f =>
         try_except
           (let* reminders := call_loader f in
            logger ("Loading " ++ pretty (length reminders)
                    ++ " reminders from callback...") "info" ;;;
            schedule_all reminders)
           (fun e => logger ("Error loading initial reminders: " ++ exn_str e)
                            "error")
           s
     | None => ret tt s
     end) ;;;
  (fun s =>
     if negb (running s) then
       (scheduler_start ;;; logger "Scheduler started." "info") s
     else ret tt s).

Definition add_reminder (reminder_id : Z) (user_id cron message : string)
  : M state unit :=
  try_except_ValueError
    (lift_result (from_crontab cron) ;;; ret tt)
    (fun e => raise (ValueError ("Invalid cron expression: " ++ exn_str e))) ;;;
  schedule_job reminder_id user_id cron message.

Definition delete_reminder (reminder_id : Z) : M state bool :=
  fun s =>
    let job_id := pretty reminder_id in
    match jobs s !! job_id with
    | Some _ => (Ok true, set_jobs (delete job_id) s)
    | None => (Ok false, s)
    end.

(** The timing engine, as far as the claims need it: when the job
    [job_id] falls due, the engine calls its function with its
    arguments.  A tick fires the due jobs one after the other; this
    engine has no protection of its own, an exception escaping one
    firing would end the tick. *)
Definition fire (job_id : string) : M state unit :=
  fun s =>
    match jobs s !! job_id with
    | Some j => let '(user_id, message, cron) := job_args j in
                _job_wrapper user_id message cron s
    | None => ret tt s
    end.

Fixpoint tick (due : list string) : M state unit :=
  match due with
  | [] => ret tt
  | job_id :: rest => fire job_id ;;; tick rest
  end.

(** What the callback has been awaited with once the jobs [due] of the job
    store [m] have fired in turn: the arguments of each job that is
    registered, in that order. *)
Definition deliveries (m : gmap string job) (due : list string)
  : list (string * string) :=
  flat_map (fun job_id =>
              match m !! job_id with
              | Some j => let '(user_id, message, cron) := job_args j in
                          [(user_id, format_message message cron)]
              | None => []
              end) due.

(** *** managers/adapters.py *)

Definition adapter_add_reminder (user_id cron message : string) : M state Z :=
  logger ("AiAgentAdapter: Adding reminder for user " ++ user_id ++ ": "
          ++ dquote ++ message ++ dquote ++ " with cron "
          ++ dquote ++ cron ++ dquote) "info" ;;;
  let* reminder_id := StorageManager.add_reminder user_id cron message in
  add_reminder reminder_id user_id cron message ;;;
  logger ("AiAgentAdapter: Reminder " ++ pretty reminder_id
          ++ " added for user " ++ user_id) "debug" ;;;
  ret reminder_id.

(** *** ui/telegram/validator.py *)

Definition parse_reminder_add_args (args : list string)
  : result (string * string) :=
  if (length args <? 6)%nat then
    Raise (ValidationError "Usage: /reminder_add [cron_expression] [message]")
  else
    let cron := join (take 5 args) in
    let message := join (drop 5 args) in
    match from_crontab cron with
    | Raise e =>
        Raise (ValidationError ("Invalid cron expression: " ++ exn_str e))
    | Ok _ =>
        if String.eqb message EmptyString || negb (strip_truthy message) then
          Raise (ValidationError "Message is required")
        else Ok (cron, message)
    end.

(** *** ui/telegram/handlers.py

    Of [handle_reminder_add] the guard on an update without message or
    user is left out; what it parses, stores, registers, logs and replies
    is as in the source.

    [reply_text text] is the outcome of
    [await update.message.reply_text(text, parse_mode='HTML')]: the chat
    library and the network are outside the repository, and the call
    raises when the message cannot be delivered or its markup is refused.
    What the handler does is stated for every such outcome. *)
Variable reply_text : string -> result unit.

Definition reminder_created_text (reminder_id : Z) (message cron : string)
  : string :=
  "✅ <b>Reminder Created!</b>

🔔 <b>ID:</b> #"
  ++ pretty reminder_id
  ++ "
📝 <b>Message:</b> "
  ++ message
  ++ "
🕐 <b>Schedule:</b> <code>"
  ++ cron
  ++ "</code>

💡 Use /myreminders to view all your reminders".

Definition reminder_error_text (e : exn) : string :=
  "❌ <b>Error</b>

"
  ++ exn_str e
  ++ "

<i>Usage: /newreminder [cron expression] [message]</i>
<i>Example: /newreminder 0 9 * * * Good morning!</i>".

Definition handlers_add_reminder (user_id : Z) (cron message : string)
  : M state Z :=
  logger ("Adding reminder for user " ++ pretty user_id ++ ": "
          ++ dquote ++ message ++ dquote ++ " with cron "
          ++ dquote ++ cron ++ dquote) "info" ;;;
  let* reminder_id :=
    StorageManager.add_reminder (pretty user_id) cron message in
  add_reminder reminder_id (pretty user_id) cron message ;;;
  logger ("Reminder " ++ pretty reminder_id
          ++ " added successfully for user " ++ pretty user_id) "info" ;;;
  ret reminder_id.

Definition handle_reminder_add (telegram_id : Z) (args : list string)
  : M state unit :=
  try_except
    (let* parsed := lift_result (parse_reminder_add_args args) in
     let* reminder_id :=
       handlers_add_reminder telegram_id (fst parsed) (snd parsed) in
     lift_result
       (reply_text (reminder_created_text reminder_id (snd parsed)
                      (fst parsed))))
    (fun e =>
       logger ("Error adding reminder for user " ++ pretty telegram_id
               ++ ": " ++ exn_str e) "error" ;;;
       lift_result (reply_text (reminder_error_text e))).

(** [delete_reminder] of ui/telegram/handlers.py: [user_id] is the chat user
    who asked, and is used in the two log lines only. *)
Definition handlers_delete_reminder (user_id reminder_id : Z) : M state unit :=
  logger ("Deleting reminder " ++ pretty reminder_id ++ " for user "
          ++ pretty user_id) "info" ;;;
  delete_reminder reminder_id ;;;
  StorageManager.delete_reminder reminder_id ;;;
  logger ("Reminder " ++ pretty reminder_id ++ " deleted successfully for user "
          ++ pretty user_id) "info".

End WithCron.

(** Whether [s] begins with a white-space character of [str.isspace()]. *)
Definition space_prefix (s : string) : bool :=
  match s with
  | EmptyString => false
  | String c1 s1 =>
      is_space c1
      || match s1 with
         | EmptyString => false
         | String c2 s2 =>
             is_space2 c1 c2
             || match s2 with
                | EmptyString => false
                | String c3 _ => is_space3 c1 c2 c3
                end
         end
  end.

(** A word as [str.split()] yields them, which is how the arguments of a chat
    command arrive: not empty, and no white-space character anywhere in
    it. *)
Fixpoint no_space (s : string) : bool :=
  match s with
  | EmptyString => true
  | String c s' => negb (space_prefix (String c s')) && no_space s'
  end.
Definition is_word (s : string) : bool :=
  negb (String.eqb s EmptyString) && no_space s.

(** The primary key of the [reminders] table: every id in it lies below the
    autoincrement counter, and no id occurs twice. *)
Definition ids_fresh (s : state) : Prop :=
  (forall r, r ∈ reminders s -> id r < next_id s) /\ NoDup (id <$> reminders s).

End Schedule.

(** ** utils.py and the conversation history of storage_manager.py *)

Module Utils.

(** [pick(source, keys)]: [{key: source[key] for key in keys if key in
    source}], built in the order of [keys]. *)
Definition pick {V} (source : gmap string V) (keys : list string)
  : gmap string V :=
  foldl (fun acc key =>
           match source !! key with
           | Some v => <[key := v]> acc
           | None => acc
           end) ∅ keys.

End Utils.

Module History.
Section WithMessage.

(** One stored message; the code never looks inside. *)
Variable message : Type.

(** [l[start:]] for a list: a negative start counts from the end, and both
    are clamped to the list. *)
Definition slice_from (l : list message) (start : Z) : list message :=
  let len := Z.of_nat (length l) in
  let i := if Z.ltb start 0 then Z.max (start + len) 0 else Z.min start len in
  drop (Z.to_nat i) l.

Definition rotate_messages (messages : list message) (max_messages : Z)
  : result (list message) :=
  if Z.leb max_messages 0 then
    Raise (ValueError "max_messages must be positive")
  else if Z.leb (Z.of_nat (length messages)) max_messages then Ok messages
  else Ok (slice_from messages (- max_messages)).

(** The [conversation_history] table: user id to messages. *)
Abbreviation table := (gmap string (list message)).

Definition get_conversation_history (user_id : string)
  : M table (list message) :=
  fun t => (Ok (default [] (t !! user_id)), t).

Definition save_conversation_history (user_id : string)
    (messages : list message) (max_messages : Z) : M table unit :=
  if Z.leb max_messages 0 then
    raise (ValueError "max_messages must be positive")
  else
    let* rotated_messages := lift_result (rotate_messages messages max_messages) in
    fun t => (Ok tt, <[user_id := rotated_messages]> t).

End WithMessage.

Arguments slice_from {message} l start.
Arguments rotate_messages {message} messages max_messages.
Arguments get_conversation_history {message} user_id.
Arguments save_conversation_history {message} user_id messages max_messages.

End History.

(** ** utils.py, [RetryTransport] *)

Module Retry.

(** The transport underneath ([below n] is the outcome of the [n]-th call
    of [super().handle_async_request]; [TransportError] stands for
    [httpx.ConnectError] and [httpx.TimeoutException], any other exception
    is another constructor), and how a delay is printed with [:.2f]. *)
Record env : Type := {
  below : nat -> result Tokens.response;
  format_delay : Z -> nat -> string
}.

(** A delay is [2**attempt + random.uniform(0, 1)]: the base delay and which
    draw of the random generator the jitter is.  The world counts the calls
    of the transport underneath and the draws, and keeps the delays slept
    and the logger's lines. *)
Record world : Type := {
  attempts : nat;
  draws : nat;
  slept : list (Z * nat);
  log : list (string * string)
}.

Definition is_connect_or_timeout (e : exn) : bool :=
  match e with TransportError _ => true | _ => false end.

(** The outcomes of the transport underneath after which the loop goes on
    while attempts are left: an answer with a 5xx status or 429, a connect
    error or a timeout. *)
Definition retryable (r : result Tokens.response) : bool :=
  match r with
  | Ok response =>
      negb (Z.ltb (Tokens.status_code response) 500
            && negb (Z.eqb (Tokens.status_code response) 429))
  | Raise e => is_connect_or_timeout e
  end.

Section WithEnv.
Variable E : env.

Definition logger (msg level : string) : M world unit :=
  fun w => (Ok tt, {| attempts := attempts w; draws := draws w;
                      slept := slept w; log := log w ++ [(msg, level)] |}).

(** [await super().handle_async_request(request)] *)
Definition handle_below : M world Tokens.response :=
  fun w => (below E (attempts w),
            {| attempts := S (attempts w); draws := draws w;
               slept := slept w; log := log w |}).

(** [random.uniform(0, 1)] *)
Definition uniform : M world nat :=
  fun w => (Ok (draws w),
            {| attempts := attempts w; draws := S (draws w);
               slept := slept w; log := log w |}).

(** [await asyncio.sleep(delay)] *)
Definition sleep (delay : Z * nat) : M world unit :=
  fun w => (Ok tt, {| attempts := attempts w; draws := draws w;
                      slept := slept w ++ [delay]; log := log w |}).

(** [try: body / except (httpx.ConnectError, httpx.TimeoutException):
    handler] *)
Definition try_except_connect {A} (body : M world A) (handler : exn -> M world A)
  : M world A :=
  fun w => match body w with
           | (Ok a, w') => (Ok a, w')
           | (Raise e, w') =>
               if is_connect_or_timeout e then handler e w' else (Raise e, w')
           end.

(** What both branches do before the next attempt: draw the jitter, log,
    sleep. *)
Definition back_off (attempt : Z) (what level : string) : M world unit :=
  let base_delay := 2 ^ attempt in
  let* jitter := uniform in
  let delay := (base_delay, jitter) in
  logger (what ++ pretty (attempt + 1) ++ " after "
          ++ format_delay E base_delay jitter ++ "s") level ;;;
  sleep delay.

(** One turn of the [for] loop: either the function returns ([inl]), or the
    loop goes on with the variable [response] as it now is ([inr]). *)
Definition turn (max_retries attempt : Z) (response : option Tokens.response)
  : M world (Tokens.response + option Tokens.response) :=
  try_except_connect
    (let* response := handle_below in
     if Z.ltb (Tokens.status_code response) 500
        && negb (Z.eqb (Tokens.status_code response) 429)
     then ret (inl response)
     else if Z.ltb attempt (max_retries - 1) then
       back_off attempt "Retry attempt " "warning" ;;;
       ret (inr (Some response))
     else ret (inl response))
    (fun e =>
       if Z.ltb attempt (max_retries - 1) then
         back_off attempt "Connection error, retry " "error" ;;;
         ret (inr response)
       else raise e).

(** [for attempt in range(self.max_retries)], from [attempt] on with [fuel]
    turns left, and the two statements after the loop. *)
Fixpoint turns (fuel : nat) (max_retries attempt : Z)
    (response : option Tokens.response) : M world Tokens.response :=
  match fuel with
  | O =>
      match response with
      | None => raise (TransportError "Failed to connect after multiple attempts")
      | Some r => ret r
      end
  | S fuel' =>
      let* outcome := turn max_retries attempt response in
      match outcome with
      | inl r => ret r
      | inr response' => turns fuel' max_retries (attempt + 1) response'
      end
  end.

Definition handle_async_request (max_retries : Z) : M world Tokens.response :=
  turns (Z.to_nat max_retries) max_retries 0 None.

End WithEnv.

(** The delays of [n] back-offs in a row when the first follows attempt [a]
    and takes the [d]-th draw: [2 ** attempt] and the jitter drawn, for each
    attempt from [a] on. *)
Definition delays (a d n : nat) : list (Z * nat) :=
  (fun i => (2 ^ Z.of_nat (a + i), (d + i)%nat)) <$> seq 0 n.

End Retry.

(** ** Concrete environments and worlds the examples below run on *)

Module TokenScenarios.
Import Tokens.

(** A provider that gives the same answer to every request, and a clock
    that stands still at [now]. *)
Definition env_of (now : Z) (answer : result response) : env :=
  {| clock := fun _ => now;
     provider := fun _ _ => answer;
     google_oauth2_client_id := "client-id";
     google_oauth2_secret := "client-secret" |}.

Definition ok_200 (body : dict) : result response :=
  Ok {| status_code := 200; text := "{...}"; json := Some body |}.

Definition status_only (code : Z) : result response :=
  Ok {| status_code := code; text := "error"; json := None |}.

(** A fresh world whose table is [rows]. *)
Definition world_of (rows : gmap string dict) : world :=
  {| user_tokens := rows; clock_reads := 0%nat;
     sent := []; log := []; calls := [] |}.

(** A complete record that expires at [expires_at]. *)
Definition record (expires_at : Z) : dict :=
  <["access_token" := PStr "old"]>
    (<["refresh_token" := PStr "r1"]>
       (<["expires_at" := PInt expires_at]>
          (<["scope" := PStr "calendar"]> ∅))).

(** A record that holds no refresh token. *)
Definition record_without_refresh (expires_at : Z) : dict :=
  <["access_token" := PStr "old"]> (<["expires_at" := PInt expires_at]> ∅).

(** A token response with an integer lifetime, and one whose lifetime
    arrives as a JSON string. *)
Definition good_body : dict :=
  <["access_token" := PStr "new"]> (<["expires_in" := PInt 3599]> ∅).
Definition text_lifetime_body : dict :=
  <["access_token" := PStr "new"]> (<["expires_in" := PStr "3599"]> ∅).

End TokenScenarios.

Module ScheduleScenarios.
Import Schedule.

(** A field checker that accepts whatever the five fields hold: with it
    an expression is rejected only for its number of fields. *)
Definition any_fields : list string -> bool := fun _ => true.

(** A freshly constructed [ScheduleManager] over a table holding [rows],
    with [loader] as its [on_start]. *)
Definition init (rows : list reminder) (next : Z) (loader : option loader_fn)
  : state :=
  {| reminders := rows; next_id := next;
     callback := None; on_start := loader;
     jobs := ∅; running := false; log := []; awaited := [] |}.

Definition row (i : Z) (c : string) : reminder :=
  {| id := i; user_id := "owner"; cron := c; message := "drink water" |}.

(** A callback that raises for the owner ["a"] and delivers for anyone
    else. *)
Definition failing_for_a : callback_fn :=
  fun _ user_id _ =>
    if String.eqb user_id "a" then Raise (OtherError "chat not found")
    else Ok tt.

(** Two registered jobs, ["1"] for the owner ["a"] and ["2"] for the owner
    ["b"], with [failing_for_a] as the callback. *)
Definition every_minute : trigger :=
  {| minute := "*"; hour := "*"; day := "*"; month := "*"; day_of_week := "*" |}.

Definition two_jobs : state :=
  {| reminders := []; next_id := 3;
     callback := Some failing_for_a;
     on_start := None;
     jobs := <["1" := {| job_trigger := every_minute;
                         job_args := ("a", "stand up", "* * * * *") |}]>
               (<["2" := {| job_trigger := every_minute;
                            job_args := ("b", "drink water", "* * * * *") |}]> ∅);
     running := true; log := []; awaited := [] |}.

(** The same two jobs on a manager whose callback was never set. *)
Definition two_jobs_no_callback : state :=
  {| reminders := []; next_id := 3;
     callback := None; on_start := None;
     jobs := jobs two_jobs;
     running := true; log := []; awaited := [] |}.

(** A table with the rows 1 and 2 of one owner and the job of row 1
    registered. *)
Definition two_rows : state :=
  {| reminders := [row 1 "* * * * *"; row 2 "0 12 * * *"]; next_id := 3;
     callback := None; on_start := None;
     jobs := <["1" := {| job_trigger := every_minute;
                         job_args := ("owner", "drink water", "* * * * *") |}]> ∅;
     running := true; log := []; awaited := [] |}.

End ScheduleScenarios.

Module RetryScenarios.
Import Retry.

(** A transport underneath that answers 503 twice and 200 from then on,
    and a fresh world. *)
Definition flaky : env :=
  {| below := fun n => if (n <? 2)%nat then TokenScenarios.status_only 503
                       else TokenScenarios.status_only 200;
     format_delay := fun base _ => pretty base |}.

Definition fresh : world :=
  {| attempts := 0; draws := 0; slept := []; log := [] |}.

End RetryScenarios.

(** ** Symbolic execution of the monadic code *)

Module Exec.

(** Case analysis on an innermost [match] of the goal or of a hypothesis. *)
Ltac step :=
  match goal with
  | |- context [match ?x with _ => _ end] =>
      lazymatch x with
      | context [match _ with _ => _ end] => fail
      | _ => destruct x eqn:?
      end
  | H : context [match ?x with _ => _ end] |- _ =>
      lazymatch x with
      | context [match _ with _ => _ end] => fail
      | _ => destruct x eqn:?
      end
  end.

End Exec.

Module TokensTactics.
Import Tokens.

(** Unfolds the monad and the primitive operations, not the four functions
    of [core/user_tokens.py] themselves. *)
Ltac run :=
  intros;
  unfold try_refresh, bind, lift, ret, raise, logger,
    called, time, post, token_get, token_getitem, token_setitem, token_data,
    response_json, getitem, add, sub, lt, lift_result,
    StorageManager.save_user_token, StorageManager.get_user_token,
    StorageManager.delete_user_token, set_user_tokens, try_except in *;
  cbn in *.

(** Runs a function of [core/user_tokens.py] through all of its branches. *)
Ltac run_all :=
  unfold get_valid_token, revoke_google_token, delete_user_token,
    refresh_access_token in *;
  run; repeat (Exec.step; cbn in *; simplify_eq; try done);
  try (exfalso; by simplify_map_eq).

End TokensTactics.

Module ScheduleTactics.
Import Schedule.

Ltac srun :=
  intros;
  unfold bind, ret, raise, lift_result, try_except, try_except_ValueError,
    logger, set_jobs, add_job, await_callback, call_loader, scheduler_start,
    StorageManager.add_reminder in *;
  cbn in *.

End ScheduleTactics.

Module TokensFacts.
Import Tokens TokenScenarios TokensTactics.

#[local] Arguments String.append : simpl never.
#[local] Arguments pretty : simpl never.
#[local] Arguments refresh_access_token : simpl never.
#[local] Arguments revoke_google_token : simpl never.

(** *** The strict validator *)

(** A dictionary that holds a key is not empty. *)
Lemma dict_truthy_lookup (d : dict) k v : d !! k = Some v -> dict_truthy d = true.
Proof.
  intros H. unfold dict_truthy. apply bool_decide_eq_true.
  intros ->. by rewrite lookup_empty in H.
Qed.

(** C3.  With a clock that reads a time since the epoch ([0 <= now]), the
    strict validator answers [True] exactly when [expires_at] is present
    and the current time is strictly before it; it answers [False] when
    the expiry is past or equal to now, and when there is none. *)
Theorem is_token_valid_strict (now : Z) (token_data : dict) :
  0 <= now ->
  (is_token_valid now token_data = Ok true <->
     exists e, token_data !! "expires_at" = Some (PInt e) /\ now < e)
  /\ (forall e, token_data !! "expires_at" = Some (PInt e) -> e <= now ->
        is_token_valid now token_data = Ok false)
  /\ (token_data !! "expires_at" = None ->
        is_token_valid now token_data = Ok false).
Proof.
  intros Hnow. unfold is_token_valid, get. repeat split.
  - destruct (dict_truthy token_data) eqn:Hd; simpl; [|discriminate].
    destruct (token_data !! "expires_at") as [[|e|s]|] eqn:He; simpl; try discriminate.
    + destruct (Z.eqb_spec e 0); simpl; [discriminate|].
      intros [= H]. exists e. split; [done|]. by apply Z.ltb_lt.
    + destruct (String.eqb s EmptyString); simpl; discriminate.
  - intros (e & He & Hlt). rewrite (dict_truthy_lookup _ _ _ He), He. simpl.
    destruct (Z.eqb_spec e 0); [lia|]. simpl.
    f_equal. by apply Z.ltb_lt.
  - intros e He Hle. rewrite (dict_truthy_lookup _ _ _ He), He. simpl.
    destruct (Z.eqb_spec e 0); [done|]. simpl. f_equal. apply Z.ltb_ge. lia.
  - intros He. rewrite He. simpl. by destruct (dict_truthy token_data).
Qed.

(** *** The refresher *)

(** Every run of the refresher is recorded once in the ghost trace. *)
Lemma refresh_calls E uid td w :
  calls (snd (snd (refresh_access_token E uid (td, w))))
  = (calls w ++ [Refresh uid])%list.
Proof. run_all. Qed.

(** A refresh that raises leaves the table as it was. *)
Lemma refresh_raise_store E uid td w e d' w' :
  refresh_access_token E uid (td, w) = (Raise e, (d', w')) ->
  user_tokens w' = user_tokens w.
Proof. run_all. Qed.

(** A refresh that raises has either not touched the dictionary, or has
    overwritten its [access_token] and then met a lifetime that is not an
    integer. *)
Lemma refresh_raise_object E uid td w e d' w' :
  refresh_access_token E uid (td, w) = (Raise e, (d', w')) ->
  d' = td \/
  exists resp body tok,
    provider E (length (sent w)) (token_request E (get td "refresh_token"))
      = Ok resp /\
    status_code resp = 200 /\ json resp = Some body /\
    body !! "access_token" = Some tok /\
    (forall n, get_default body "expires_in" (PInt 3600) <> PInt n) /\
    d' = <["access_token" := tok]> td.
Proof.
  run_all; try (by left).
  all: right; eexists _, _, _; repeat split; eauto.
  all: try (apply Z.eqb_eq; by destruct (status_code _ =? 200)%Z).
  all: try congruence.
Qed.

(** The refresher returns whenever the record carries a refresh token and
    the provider answers 200 with an access token and an integer (or no)
    lifetime. *)
Lemma refresh_returns E uid td w resp body tok life :
  truthy (get td "refresh_token") = true ->
  provider E (length (sent w)) (token_request E (get td "refresh_token"))
    = Ok resp ->
  status_code resp = 200 -> json resp = Some body ->
  body !! "access_token" = Some tok ->
  get_default body "expires_in" (PInt 3600) = PInt life ->
  exists td' w', refresh_access_token E uid (td, w) = (Ok td', (td', w')).
Proof.
  intros Hrt Hp Hs Hj Htok Hlife. unfold refresh_access_token. run.
  rewrite Hrt. cbn. rewrite Hp. cbn. rewrite Hs. cbn. rewrite Hj. cbn.
  rewrite Htok. cbn. rewrite Hlife. cbn.
  destruct (body !! "refresh_token"); cbn;
    rewrite ?lookup_insert_eq, ?lookup_insert_ne, ?lookup_insert_eq by done;
    cbn; by eexists _, _.
Qed.

(** The refresher raises without touching the dictionary when the record
    has no usable refresh token, when the request does not get through,
    and when the answer is not a 200. *)
Lemma refresh_raises_untouched E uid td w :
  (truthy (get td "refresh_token") = false \/
   (exists x, provider E (length (sent w))
                (token_request E (get td "refresh_token")) = Raise x) \/
   (exists resp, provider E (length (sent w))
                   (token_request E (get td "refresh_token")) = Ok resp /\
                 status_code resp <> 200)) ->
  exists x w', refresh_access_token E uid (td, w) = (Raise x, (td, w')).
Proof.
  intros H. unfold refresh_access_token. run.
  destruct (truthy (get td "refresh_token")) eqn:Hrt; cbn; [|by eexists _, _].
  destruct H as [H | [(x & Hx) | (resp & Hresp & Hst)]]; [done| |].
  - rewrite Hx. cbn. by eexists _, _.
  - rewrite Hresp. cbn.
    destruct (Z.eqb_spec (status_code resp) 200); [done|]. cbn.
    by eexists _, _.
Qed.

(** The refresher on a 200 answer whose lifetime is not an integer: the
    access token is already overwritten when the addition raises. *)
Lemma refresh_raises_half_way E uid td w resp body tok :
  truthy (get td "refresh_token") = true ->
  provider E (length (sent w)) (token_request E (get td "refresh_token"))
    = Ok resp ->
  status_code resp = 200 -> json resp = Some body ->
  body !! "access_token" = Some tok ->
  (forall n, get_default body "expires_in" (PInt 3600) <> PInt n) ->
  exists x w',
    refresh_access_token E uid (td, w)
    = (Raise (TypeError x), (<["access_token" := tok]> td, w')) /\
    user_tokens w' = user_tokens w.
Proof.
  intros Hrt Hp Hs Hj Htok Hlife. unfold refresh_access_token. run.
  rewrite Hrt. cbn. rewrite Hp. cbn. rewrite Hs. cbn. rewrite Hj. cbn.
  rewrite Htok. cbn.
  destruct (get_default body "expires_in" (PInt 3600)) eqn:Hl; cbn;
    [by eexists _, _|by destruct (Hlife n)|by eexists _, _].
Qed.

(** C10.  When the record carries no usable refresh token, or the provider
    answers the exchange with a status outside 200..299, the refresher
    raises with the caller's dictionary exactly as it received it and with
    the table as it was; without a refresh token it sends no request
    either. *)
Theorem refresh_atomic_on_error E uid td w :
  (truthy (get td "refresh_token") = false \/
   exists resp,
     provider E (length (sent w)) (token_request E (get td "refresh_token"))
       = Ok resp /\
     (status_code resp < 200 \/ 300 <= status_code resp)) ->
  exists e w',
    refresh_access_token E uid (td, w) = (Raise e, (td, w')) /\
    user_tokens w' = user_tokens w /\
    (truthy (get td "refresh_token") = false -> sent w' = sent w).
Proof.
  intros [Hno | (resp & Hresp & Hst)].
  - unfold refresh_access_token. run. rewrite Hno. cbn. eexists _, _. split; [reflexivity|]. by split.
  - unfold refresh_access_token. run.
    destruct (truthy (get td "refresh_token")) eqn:Hrt; cbn.
    + rewrite Hresp. cbn.
      destruct (Z.eqb_spec (status_code resp) 200) as [?|_]; [lia|]. cbn.
      eexists _, _. split; [reflexivity|]. by split.
    + eexists _, _. split; [reflexivity|]. by split.
Qed.


(** *** The lifecycle manager *)

(** The ghost trace after [get_valid_token]: one more refresher entry when
    the stored expiry is a non-zero integer below now + 300, none
    otherwise. *)
Lemma get_valid_token_calls E uid w :
  calls (snd (get_valid_token E uid w))
  = (calls w ++
     match user_tokens w !! uid with
     | Some td =>
         match td !! "expires_at" with
         | Some (PInt e) =>
             if negb (e =? 0)%Z && (e <? clock E (clock_reads w) + 300)%Z
             then [Refresh uid] else []
         | _ => []
         end
     | None => []
     end)%list.
Proof.
  unfold get_valid_token. run. unfold opt_truthy, get_default.
  destruct (user_tokens w !! uid) as [td|] eqn:Hst; cbn;
    [|by rewrite app_nil_r].
  destruct (dict_truthy td) eqn:Hd; cbn.
  - destruct (td !! "expires_at") as [[|e|s]|] eqn:He; cbn;
      try (by rewrite app_nil_r).
    + destruct (e =? 0)%Z; cbn; [by rewrite app_nil_r|].
      destruct (e <? clock E (clock_reads w) + 300)%Z; cbn;
        [|by rewrite app_nil_r].
      match goal with
      | |- context [refresh_access_token E uid (td, ?wr)] =>
          pose proof (refresh_calls E uid td wr) as Hc;
          destruct (refresh_access_token E uid (td, wr)) as [r [d' w']]
      end.
      cbn in Hc. destruct r; cbn; [done|].
      by destruct (e - clock E (clock_reads w) <? 0)%Z.
    + destruct (String.eqb s EmptyString); cbn; by rewrite app_nil_r.
  - apply bool_decide_eq_false in Hd. apply dec_stable in Hd. subst td.
    rewrite lookup_empty. by rewrite app_nil_r.
Qed.

(** A record whose [expires_at] is not truthy (absent, [None], zero,
    empty) is returned as it is: no request, no refresher, no write. *)
Lemma get_valid_token_unchecked E uid w td :
  user_tokens w !! uid = Some td ->
  dict_truthy td = true ->
  truthy (get_default td "expires_at" (PInt 0)) = false ->
  exists w',
    get_valid_token E uid w = (Ok (Some td), w') /\
    user_tokens w' = user_tokens w /\ sent w' = sent w /\
    calls w' = calls w.
Proof.
  intros Hst Htr Hex. unfold get_valid_token. run.
  rewrite Hst. cbn. rewrite Htr. cbn. rewrite Hex. cbn.
  eexists. by split.
Qed.

(** C2, as amended.  For a stored record, [get_valid_token] runs the
    refresher (exactly once) when [expires_at] is present, is not zero and
    is less than now + 300, and does not run it otherwise; with a clock
    since the epoch, a record expiring in 240 seconds is refreshed once and
    one expiring in 600 seconds is not.  A record whose [expires_at] is 0
    is returned as it is, the very record that is stored, with no
    refresher run, no request sent and nothing written.  [now] is the
    clock reading [get_valid_token] takes. *)
Theorem get_valid_token_refreshes E uid w td :
  user_tokens w !! uid = Some td ->
  let now := clock E (clock_reads w) in
  let w' := snd (get_valid_token E uid w) in
  ((exists e, td !! "expires_at" = Some (PInt e) /\ e <> 0 /\ e < now + 300) ->
     calls w' = (calls w ++ [Refresh uid])%list)
  /\ (~ (exists e, td !! "expires_at" = Some (PInt e) /\ e <> 0 /\ e < now + 300) ->
     calls w' = calls w)
  /\ (0 <= now -> td !! "expires_at" = Some (PInt (now + 240)) ->
     calls w' = (calls w ++ [Refresh uid])%list)
  /\ (0 <= now -> td !! "expires_at" = Some (PInt (now + 600)) ->
     calls w' = calls w)
  /\ (td !! "expires_at" = Some (PInt 0) ->
     get_valid_token E uid w = (Ok (Some td), w') /\
     calls w' = calls w /\ sent w' = sent w /\
     user_tokens w' = user_tokens w).
Proof.
  intros Hst now w'.
  assert (Hzero : td !! "expires_at" = Some (PInt 0) ->
            get_valid_token E uid w = (Ok (Some td), w') /\
            calls w' = calls w /\ sent w' = sent w /\
            user_tokens w' = user_tokens w).
  { intros He. subst w'.
    destruct (get_valid_token_unchecked E uid w td Hst)
      as (w0 & Hrun & Hut & Hs & Hc).
    - by apply (dict_truthy_lookup td "expires_at" (PInt 0)).
    - unfold get_default. by rewrite He.
    - rewrite Hrun. by repeat split. }
  subst w'. split; [|split; [|split; [|split; [|exact Hzero]]]];
    rewrite get_valid_token_calls, Hst; fold now.
  - intros (e & -> & Hne & Hlt).
    destruct (Z.eqb_spec e 0); [done|]. cbn.
    by destruct (Z.ltb_spec e (now + 300)); [|lia].
  - intros Hno.
    destruct (td !! "expires_at") as [[|e|s]|] eqn:He; try by rewrite app_nil_r.
    destruct (Z.eqb_spec e 0); cbn; [by rewrite app_nil_r|].
    destruct (Z.ltb_spec e (now + 300)); [|by rewrite app_nil_r].
    destruct Hno. by exists e.
  - intros Hnow ->.
    destruct (Z.eqb_spec (now + 240) 0); [lia|]. cbn.
    by destruct (Z.ltb_spec (now + 240) (now + 300)); [|lia].
  - intros Hnow ->.
    destruct (Z.eqb_spec (now + 600) 0); [lia|]. cbn.
    destruct (Z.ltb_spec (now + 600) (now + 300)); [lia|]. by rewrite app_nil_r.
Qed.

(** What [get_valid_token] hands back once it has decided to refresh:
    the refreshed record when the refresher returns; when it raises,
    nothing if the expiry is past and otherwise the caller's dictionary
    as the refresher left it. *)
Lemma get_valid_token_after_refresh E uid w td e :
  user_tokens w !! uid = Some td ->
  td !! "expires_at" = Some (PInt e) -> e <> 0 ->
  e < clock E (clock_reads w) + 300 ->
  exists wr,
    user_tokens wr = user_tokens w /\ sent wr = sent w /\
    clock_reads wr = S (clock_reads w) /\
    match refresh_access_token E uid (td, wr) with
    | (Ok td', (_, w1)) =>
        fst (get_valid_token E uid w) = Ok (Some td') /\
        user_tokens (snd (get_valid_token E uid w)) = user_tokens w1
    | (Raise _, (d', w1)) =>
        fst (get_valid_token E uid w)
        = Ok (if (e <? clock E (clock_reads w))%Z then None else Some d') /\
        user_tokens (snd (get_valid_token E uid w)) = user_tokens w1
    end.
Proof.
  intros Hst He Hne Hlt. unfold get_valid_token. run.
  unfold opt_truthy, get_default.
  rewrite Hst. cbn. rewrite (dict_truthy_lookup _ _ _ He), He. cbn.
  destruct (Z.eqb_spec e 0); [done|]. cbn.
  destruct (Z.ltb_spec e (clock E (clock_reads w) + 300)); [|lia]. cbn.
  match goal with
  | |- context [refresh_access_token E uid (td, ?wr)] => exists wr
  end.
  repeat split.
  destruct (refresh_access_token E uid _) as [[td'|x] [d' w']]; cbn; [done|].
  destruct (Z.ltb_spec (e - clock E (clock_reads w)) 0);
    destruct (Z.ltb_spec e (clock E (clock_reads w))); try lia; done.
Qed.

(** After a refresh that raised before it touched the dictionary, a record
    that is not yet past comes back as it was stored. *)
Lemma get_valid_token_fallback E uid w td e :
  user_tokens w !! uid = Some td ->
  td !! "expires_at" = Some (PInt e) -> e <> 0 ->
  clock E (clock_reads w) <= e < clock E (clock_reads w) + 300 ->
  (truthy (get td "refresh_token") = false \/
   (exists x, provider E (length (sent w))
                (token_request E (get td "refresh_token")) = Raise x) \/
   (exists resp, provider E (length (sent w))
                   (token_request E (get td "refresh_token")) = Ok resp /\
                 status_code resp <> 200)) ->
  fst (get_valid_token E uid w) = Ok (Some td).
Proof.
  intros Hst He Hne [Hle Hlt] Hfail.
  destruct (get_valid_token_after_refresh E uid w td e Hst He Hne Hlt)
    as (wr & _ & Hsent & _ & Hres).
  rewrite <- Hsent in Hfail.
  destruct (refresh_raises_untouched E uid td wr Hfail) as (x & w1 & Hr).
  rewrite Hr in Hres. destruct Hres as [-> _].
  by destruct (Z.ltb_spec e (clock E (clock_reads w))); [lia|].
Qed.

(** After a refresh that raised half way, a record that is not yet past
    comes back with the new access token under its old expiry, and the table
    still holds the old record. *)
Lemma get_valid_token_half_way E uid w td e resp body tok :
  user_tokens w !! uid = Some td ->
  td !! "expires_at" = Some (PInt e) -> e <> 0 ->
  clock E (clock_reads w) <= e < clock E (clock_reads w) + 300 ->
  truthy (get td "refresh_token") = true ->
  provider E (length (sent w)) (token_request E (get td "refresh_token"))
    = Ok resp ->
  status_code resp = 200 -> json resp = Some body ->
  body !! "access_token" = Some tok ->
  (forall n, get_default body "expires_in" (PInt 3600) <> PInt n) ->
  fst (get_valid_token E uid w) = Ok (Some (<["access_token" := tok]> td)) /\
  user_tokens (snd (get_valid_token E uid w)) = user_tokens w.
Proof.
  intros Hst He Hne [Hle Hlt] Hrt Hp Hs Hj Htok Hlife.
  destruct (get_valid_token_after_refresh E uid w td e Hst He Hne Hlt)
    as (wr & Hut & Hsent & _ & Hres).
  rewrite <- Hsent in Hp.
  destruct (refresh_raises_half_way E uid td wr resp body tok
              Hrt Hp Hs Hj Htok Hlife) as (x & w1 & Hr & Hut1).
  rewrite Hr in Hres. destruct Hres as [-> ->].
  split; [|congruence].
  by destruct (Z.ltb_spec e (clock E (clock_reads w))); [lia|].
Qed.

(** *** Revoke and delete *)

(** C6.  [revoke_google_token] always returns (it never raises) and leaves
    the table alone.  It returns [True] exactly when it has an access token
    to send and the provider answers the request with status 200 or 400;
    any other status and any transport failure give [False].  With an
    access token it sends exactly one request; when the record has no
    [access_token] it returns [False] and sends none. *)
Theorem revoke_never_raises E td w :
  exists b w',
    revoke_google_token E td w = (Ok b, w') /\
    user_tokens w' = user_tokens w /\
    (b = true <->
       truthy (get td "access_token") = true /\
       exists resp,
         provider E (length (sent w)) (revoke_request (get td "access_token"))
           = Ok resp /\
         (status_code resp = 200 \/ status_code resp = 400)) /\
    (truthy (get td "access_token") = true ->
       sent w' = (sent w ++ [revoke_request (get td "access_token")])%list) /\
    (td !! "access_token" = None -> b = false /\ sent w' = sent w).
Proof.
  unfold revoke_google_token. run. unfold get.
  destruct (td !! "access_token") as [v|] eqn:Hv; cbn.
  2: { eexists _, _. split; [reflexivity|]. repeat split; try done.
       by intros [? _]. }
  destruct (truthy v) eqn:Ht; cbn.
  2: { eexists _, _. split; [reflexivity|]. repeat split; try done.
       by intros [? _]. }
  destruct (provider E (length (sent w)) (revoke_request v)) as [resp|x] eqn:Hp;
    cbn.
  2: { eexists _, _. split; [reflexivity|]. repeat split; try done.
       by intros [_ (? & ? & _)]. }
  destruct (Z.eqb_spec (status_code resp) 200); cbn.
  { eexists _, _. split; [reflexivity|]. repeat split; try done.
    exists resp. split; [done|]. by left. }
  destruct (Z.eqb_spec (status_code resp) 400); cbn.
  { eexists _, _. split; [reflexivity|]. repeat split; try done.
    exists resp. split; [done|]. by right. }
  eexists _, _. split; [reflexivity|]. repeat split; try done.
  intros [_ (resp' & Hresp' & Hst)]. simplify_eq. lia.
Qed.

(** Every run of the revoke is recorded once in the ghost trace. *)
Lemma revoke_calls E td w :
  calls (snd (revoke_google_token E td w)) = (calls w ++ [Revoke])%list.
Proof. run_all. Qed.

(** The revoke returns, and does not write to the table. *)
Lemma revoke_returns E td w :
  exists b w', revoke_google_token E td w = (Ok b, w') /\
               user_tokens w' = user_tokens w.
Proof. run_all; by eexists _, _. Qed.

(** C7, as amended.  On a user with a stored record, [delete_user_token]
    returns [True] and removes the row; it runs the revoke exactly once
    when the record is a non-empty dictionary, whatever the revoke
    answers, and not at all when the record is empty.  The revoke comes
    first and the deletion of the row after it: that is the order of the
    two entries in the trace, the revoke is run on the stored record in a
    world whose table is the one before the call, and the row is still
    there when it returns.  On a user with no record it returns [False],
    runs no revoke, deletes nothing, sends nothing and leaves the table as
    it was. *)
Theorem delete_user_token_revokes E uid w :
  match user_tokens w !! uid with
  | Some td =>
      exists w',
        delete_user_token E uid w = (Ok true, w') /\
        user_tokens w' = delete uid (user_tokens w) /\
        calls w' = (calls w ++ (if decide (td = ∅) then [] else [Revoke])
                            ++ [Deleted uid])%list /\
        (td <> ∅ ->
         exists w0 b w1,
           user_tokens w0 = user_tokens w /\ sent w0 = sent w /\
           calls w0 = calls w /\
           revoke_google_token E td w0 = (Ok b, w1) /\
           user_tokens w1 !! uid = Some td /\
           calls w1 = (calls w ++ [Revoke])%list /\
           sent w' = sent w1)
  | None =>
      exists w',
        delete_user_token E uid w = (Ok false, w') /\
        user_tokens w' = user_tokens w /\
        calls w' = calls w /\ sent w' = sent w
  end.
Proof.
  unfold delete_user_token. run. unfold opt_truthy, dict_truthy.
  destruct (user_tokens w !! uid) as [td|] eqn:Hst; cbn.
  - destruct (decide (td = ∅)) as [->|Hne].
    + rewrite bool_decide_eq_false_2 by (by intros H; apply H).
      cbn. rewrite Hst. cbn. eexists. split; [reflexivity|].
      cbn. by repeat split.
    + rewrite bool_decide_eq_true_2 by done.
      match goal with
      | |- context [revoke_google_token E td ?w0] =>
          destruct (revoke_returns E td w0) as (b & w1 & Hr & Hut);
          pose proof (revoke_calls E td w0) as Hc
      end.
      rewrite Hr in *. cbn in *. rewrite Hut, Hst. cbn.
      eexists. split; [reflexivity|]. cbn.
      split; [done|]. split; [by rewrite Hc, <- app_assoc|].
      intros _. eexists _, b, w1.
      split; [|split; [|split; [|split; [exact Hr|]]]]; [done..|].
      split; [by rewrite Hut|]. by split.
  - rewrite Hst. cbn. eexists. split; [reflexivity|]. by repeat split.
Qed.

(** *** The theorems at concrete inputs *)

(** C3 at a record that expires at 1100, read at 1000. *)
Lemma is_token_valid_strict_witness :
  0 <= 1000 /\
  (is_token_valid 1000 (record 1100) = Ok true <->
     exists e, record 1100 !! "expires_at" = Some (PInt e) /\ 1000 < e).
Proof.
  split; [lia|].
  apply (is_token_valid_strict 1000 (record 1100)). lia.
Defined.

(** C2 as stated fails: a stored record whose [expires_at] is present and
    equal to 0, which is less than now + 300 at time 1000, is not
    refreshed: it is returned as it is, and nothing is sent. *)
Lemma get_valid_token_zero_expiry_no_refresh :
  let E := env_of 1000 (ok_200 good_body) in
  let w := world_of {[ "u" := record 0 ]} in
  user_tokens w !! "u" = Some (record 0) /\
  (exists e, record 0 !! "expires_at" = Some (PInt e) /\
             e < clock E (clock_reads w) + 300) /\
  calls (snd (get_valid_token E "u" w)) = [] /\
  fst (get_valid_token E "u" w) = Ok (Some (record 0)) /\
  sent (snd (get_valid_token E "u" w)) = [].
Proof.
  cbn zeta. split; [reflexivity|]. split.
  - exists 0. split; [vm_compute; reflexivity|]. cbn. lia.
  - destruct (get_valid_token_unchecked (env_of 1000 (ok_200 good_body)) "u"
                (world_of {[ "u" := record 0 ]}) (record 0))
      as (w' & Hrun & _ & Hs & Hc).
    + reflexivity.
    + by apply (dict_truthy_lookup (record 0) "expires_at" (PInt 0)).
    + reflexivity.
    + rewrite Hrun. cbn. by rewrite Hs, Hc.
Qed.

(** C2 (amended) at a record that expires in 240 seconds. *)
Lemma get_valid_token_refreshes_witness :
  let E := env_of 1000 (ok_200 good_body) in
  let w := world_of {[ "u" := record 1240 ]} in
  user_tokens w !! "u" = Some (record 1240) /\
  calls (snd (get_valid_token E "u" w)) = [Refresh "u"].
Proof.
  cbn zeta.
  assert (Hst : user_tokens (world_of {[ "u" := record 1240 ]}) !! "u"
                = Some (record 1240)) by reflexivity.
  split; [exact Hst|].
  destruct (get_valid_token_refreshes (env_of 1000 (ok_200 good_body)) "u"
              (world_of {[ "u" := record 1240 ]}) (record 1240) Hst)
    as (Hdue & _).
  apply Hdue. exists 1240. split; [vm_compute; reflexivity|]. cbn. lia.
Defined.

(** C4 at the failing input.  The stored record expires at 1100 and the
    clock reads 1000; the provider answers 200 with a new access token and
    the lifetime as the string "3599".  The refresher raises [TypeError]
    after it has overwritten [access_token], and [get_valid_token] returns
    that dictionary: the new access token under the old expiry, while the
    table still holds the old record. *)
Theorem get_valid_token_half_refreshed :
  let E := env_of 1000 (ok_200 text_lifetime_body) in
  let w := world_of {[ "u" := record 1100 ]} in
  let half := <["access_token" := PStr "new"]> (record 1100) in
  user_tokens w !! "u" = Some (record 1100) /\
  (exists x w1, refresh_access_token E "u" (record 1100, w)
                = (Raise (TypeError x), (half, w1))) /\
  fst (get_valid_token E "u" w) = Ok (Some half) /\
  half !! "access_token" = Some (PStr "new") /\
  record 1100 !! "access_token" = Some (PStr "old") /\
  user_tokens (snd (get_valid_token E "u" w)) !! "u" = Some (record 1100).
Proof.
  cbn zeta.
  assert (Hlife : forall n, get_default text_lifetime_body "expires_in" (PInt 3600)
                            <> PInt n) by (intros n; vm_compute; discriminate).
  assert (Htok : text_lifetime_body !! "access_token" = Some (PStr "new"))
    by (vm_compute; reflexivity).
  assert (Hrt : truthy (get (record 1100) "refresh_token") = true)
    by (vm_compute; reflexivity).
  assert (Hexp : record 1100 !! "expires_at" = Some (PInt 1100))
    by (vm_compute; reflexivity).
  assert (Hst : user_tokens (world_of {[ "u" := record 1100 ]}) !! "u"
                = Some (record 1100)) by reflexivity.
  assert (Hrange : 1000 <= 1100 < 1000 + 300) by lia.
  assert (Hne : 1100 <> 0) by lia.
  pose proof (get_valid_token_half_way
                (env_of 1000 (ok_200 text_lifetime_body)) "u"
                (world_of {[ "u" := record 1100 ]}) (record 1100) 1100
                _ text_lifetime_body (PStr "new")
                Hst Hexp Hne Hrange Hrt eq_refl eq_refl eq_refl Htok Hlife)
    as [Hres Hstore].
  destruct (refresh_raises_half_way (env_of 1000 (ok_200 text_lifetime_body))
              "u" (record 1100) (world_of {[ "u" := record 1100 ]})
              _ text_lifetime_body (PStr "new") Hrt eq_refl eq_refl eq_refl
              Htok Hlife) as (x & w1 & Hr & _).
  split; [exact Hst|]. split; [by exists x, w1|]. split; [exact Hres|].
  split; [apply lookup_insert_eq|]. split; [vm_compute; reflexivity|].
  rewrite Hstore. exact Hst.
Qed.

(** C10 at a provider that answers 401. *)
Lemma refresh_atomic_on_error_witness :
  let E := env_of 1000 (status_only 401) in
  let w := world_of {[ "u" := record 1100 ]} in
  exists e w',
    refresh_access_token E "u" (record 1100, w) = (Raise e, (record 1100, w')) /\
    user_tokens w' = user_tokens w /\
    (truthy (get (record 1100) "refresh_token") = false -> sent w' = sent w).
Proof.
  cbn zeta.
  apply (refresh_atomic_on_error (env_of 1000 (status_only 401)) "u"
           (record 1100) (world_of {[ "u" := record 1100 ]})).
  right. eexists. split; [reflexivity|]. cbn. lia.
Defined.


(** C7 as stated fails: a user whose stored record is the empty
    dictionary is deleted ([True]) without any revoke attempt: the trace
    holds the deletion only. *)
Lemma delete_user_token_empty_record_no_revoke :
  let E := env_of 1000 (status_only 200) in
  let w := world_of {[ "u" := ∅ ]} in
  user_tokens w !! "u" = Some ∅ /\
  fst (delete_user_token E "u" w) = Ok true /\
  calls (snd (delete_user_token E "u" w)) = [Deleted "u"] /\
  sent (snd (delete_user_token E "u" w)) = [] /\
  user_tokens (snd (delete_user_token E "u" w)) !! "u" = None.
Proof. cbn zeta. repeat split; vm_compute; reflexivity. Qed.
End TokensFacts.

Module ScheduleFacts.
Import Schedule ScheduleScenarios ScheduleTactics.

#[local] Arguments String.append : simpl never.
#[local] Arguments pretty : simpl never.
#[local] Arguments from_crontab : simpl never.
#[local] Arguments format_message : simpl never.

(** *** The cron trigger *)

Example split_crontab : split "0 12  * * 1-5" = ["0"; "12"; "*"; "*"; "1-5"].
Proof. reflexivity. Qed.

Example from_crontab_every_minute :
  from_crontab any_fields "* * * * *" = Ok every_minute.
Proof. reflexivity. Qed.

Example from_crontab_not_a_cron fields_ok :
  from_crontab fields_ok "not a cron"
  = Raise (ValueError "Wrong number of fields; got 3, expected 5").
Proof. vm_compute. reflexivity. Qed.

(** [from_crontab] raises nothing but [ValueError]. *)
Lemma from_crontab_raises fields_ok expr e :
  from_crontab fields_ok expr = Raise e -> is_ValueError e = true.
Proof. unfold from_crontab. intros H. repeat Exec.step; by simplify_eq. Qed.

(** *** The firing wrapper *)

(** The wrapper returns whatever the callback does; it awaits the callback
    once if one is set and changes nothing else but the log. *)
Lemma job_wrapper_returns user_id message cron s :
  exists s',
    _job_wrapper user_id message cron s = (Ok tt, s') /\
    jobs s' = jobs s /\ callback s' = callback s /\
    reminders s' = reminders s /\
    awaited s' = (awaited s ++
                  match callback s with
                  | Some _ => [(user_id, format_message message cron)]
                  | None => []
                  end)%list.
Proof.
  unfold _job_wrapper. srun.
  destruct (callback s) as [cb|] eqn:Hcb; cbn.
  - destruct (cb _ _ _) as [[]|e]; cbn; eexists;
      (split; [reflexivity|]); cbn; by rewrite ?Hcb.
  - eexists. split; [reflexivity|]. cbn. by rewrite app_nil_r.
Qed.

(** So does the firing of a job, registered or not. *)
Lemma fire_returns job_id s :
  exists s',
    fire job_id s = (Ok tt, s') /\
    jobs s' = jobs s /\ callback s' = callback s /\
    reminders s' = reminders s /\
    awaited s' = (awaited s ++
                  match callback s, jobs s !! job_id with
                  | Some _, Some j =>
                      let '(user_id, message, cron) := job_args j in
                      [(user_id, format_message message cron)]
                  | _, _ => []
                  end)%list.
Proof.
  unfold fire. destruct (jobs s !! job_id) as [j|] eqn:Hj.
  - destruct (job_args j) as [[u m] c].
    destruct (job_wrapper_returns u m c s) as (s' & -> & H1 & H2 & H3 & H4).
    exists s'. by repeat split.
  - exists s. repeat split. destruct (callback s); by rewrite app_nil_r.
Qed.

(** A tick gets through all the jobs that are due. *)
Lemma tick_returns due : forall s,
  exists s',
    tick due s = (Ok tt, s') /\
    jobs s' = jobs s /\ callback s' = callback s /\
    reminders s' = reminders s /\
    awaited s' = (awaited s ++
                  match callback s with
                  | Some _ => deliveries (jobs s) due
                  | None => []
                  end)%list.
Proof.
  induction due as [|job_id due IH]; intros s.
  - exists s. repeat split. cbn. destruct (callback s); by rewrite app_nil_r.
  - cbn [tick]. unfold bind.
    destruct (fire_returns job_id s) as (s1 & -> & Hj & Hc & Hr & Ha).
    destruct (IH s1) as (s2 & -> & Hj2 & Hc2 & Hr2 & Ha2).
    exists s2. repeat split; try congruence.
    rewrite Ha2, Ha, Hc, Hj. destruct (callback s); cbn.
    + by rewrite <- app_assoc.
    + by rewrite !app_nil_r.
Qed.

(** An exception of the callback ends up in the log, at level "error". *)
Lemma job_wrapper_logs user_id message cron s cb e :
  callback s = Some cb ->
  cb (length (awaited s)) user_id (format_message message cron) = Raise e ->
  log (snd (_job_wrapper user_id message cron s))
  = (log s ++ [(("Error in reminder callback: " ++ exn_str e)%string,
                "error")])%list.
Proof.
  intros Hcb He. unfold _job_wrapper. srun. rewrite Hcb. cbn. by rewrite He.
Qed.

(** C8.  The firing wrapper always returns: an exception of the callback
    never leaves it, it is logged at level "error", and the job store is
    as before.  Hence a tick returns too, with the job store untouched,
    and (a callback being set) the callback has been awaited for every
    registered job that was due, whatever it did at the earlier ones. *)
Theorem callback_errors_are_contained
    (user_id message cron : string) (due : list string) (s : state) :
  (exists s',
     _job_wrapper user_id message cron s = (Ok tt, s') /\
     jobs s' = jobs s /\
     forall cb e,
       callback s = Some cb ->
       cb (length (awaited s)) user_id (format_message message cron) = Raise e ->
       log s' = (log s ++ [(("Error in reminder callback: "
                             ++ exn_str e)%string, "error")])%list)
  /\ (exists s',
        tick due s = (Ok tt, s') /\
        jobs s' = jobs s /\
        forall cb, callback s = Some cb ->
                   awaited s' = (awaited s ++ deliveries (jobs s) due)%list).
Proof.
  split.
  - destruct (job_wrapper_returns user_id message cron s)
      as (s' & Hrun & Hj & _).
    exists s'. repeat split; [done..|].
    intros cb e Hcb He.
    pose proof (job_wrapper_logs user_id message cron s cb e Hcb He) as Hl.
    by rewrite Hrun in Hl.
  - destruct (tick_returns due s) as (s' & Hrun & Hj & _ & _ & Ha).
    exists s'. repeat split; [done..|].
    intros cb Hcb. by rewrite Ha, Hcb.
Qed.

(** Job "1" belongs to the owner the callback fails for, job "2" to another
    one: both are awaited, one error is logged, both stay registered. *)
Example tick_survives_failing_callback :
  fst (tick ["1"; "2"] two_jobs) = Ok tt /\
  awaited (snd (tick ["1"; "2"] two_jobs))
  = [("a", format_message "stand up" "* * * * *");
     ("b", format_message "drink water" "* * * * *")] /\
  log (snd (tick ["1"; "2"] two_jobs))
  = [("Error in reminder callback: chat not found", "error")] /\
  is_Some (jobs (snd (tick ["1"; "2"] two_jobs)) !! "1") /\
  is_Some (jobs (snd (tick ["1"; "2"] two_jobs)) !! "2").
Proof.
  split; [vm_compute; reflexivity|].
  split; [vm_compute; reflexivity|].
  split; [vm_compute; reflexivity|].
  split; vm_compute; eexists; reflexivity.
Qed.

(** *** Registering jobs *)

(** [schedule_job] registers the job under [str(reminder_id)], replacing a
    job of that id. *)
Lemma schedule_job_valid fields_ok reminder_id user_id cron message t s :
  from_crontab fields_ok cron = Ok t ->
  exists s',
    schedule_job fields_ok reminder_id user_id cron message s = (Ok tt, s') /\
    jobs s' = <[pretty reminder_id :=
                  {| job_trigger := t; job_args := (user_id, message, cron) |}]>
                (jobs s) /\
    reminders s' = reminders s /\ running s' = running s /\
    on_start s' = on_start s.
Proof.
  intros Ht. unfold schedule_job. srun. rewrite Ht. cbn.
  eexists. by split.
Qed.

(** [schedule_job] swallows an expression that does not parse: it logs and
    registers nothing. *)
Lemma schedule_job_invalid fields_ok reminder_id user_id cron message e s :
  from_crontab fields_ok cron = Raise e ->
  exists s',
    schedule_job fields_ok reminder_id user_id cron message s = (Ok tt, s') /\
    jobs s' = jobs s /\
    reminders s' = reminders s /\ running s' = running s /\
    on_start s' = on_start s /\
    log s' = (log s ++ [(("Failed to schedule job " ++ pretty reminder_id
                          ++ ": " ++ exn_str e)%string, "error")])%list.
Proof.
  intros He. unfold schedule_job. srun. rewrite He. cbn.
  rewrite (from_crontab_raises _ _ _ He). eexists. by split.
Qed.

(** [schedule_job] always returns: it registers the job and logs that, or
    logs why it did not; nothing else changes. *)
Lemma schedule_job_runs fields_ok reminder_id user_id cron message s :
  exists s',
    schedule_job fields_ok reminder_id user_id cron message s = (Ok tt, s') /\
    jobs s' = match from_crontab fields_ok cron with
              | Ok t => <[pretty reminder_id :=
                            {| job_trigger := t;
                               job_args := (user_id, message, cron) |}]> (jobs s)
              | Raise _ => jobs s
              end /\
    log s' = (log s ++
              match from_crontab fields_ok cron with
              | Ok _ =>
                  [(("Scheduled job " ++ pretty reminder_id ++ " for user "
                     ++ user_id ++ " with cron " ++ cron)%string, "info")]
              | Raise e =>
                  [(("Failed to schedule job " ++ pretty reminder_id ++ ": "
                     ++ exn_str e)%string, "error")]
              end)%list /\
    reminders s' = reminders s /\ running s' = running s /\
    on_start s' = on_start s.
Proof.
  unfold schedule_job. srun.
  destruct (from_crontab fields_ok cron) as [t|e] eqn:Ht; cbn.
  - eexists. by split.
  - rewrite (from_crontab_raises _ _ _ Ht). eexists. by split.
Qed.

(** The loop of [start] over rows with distinct ids none of which is
    registered yet: a row that parses is registered under its id, a row
    that does not parse is not, each is logged, and the jobs already there
    stay. *)
Lemma schedule_all_loaded fields_ok (l : list reminder) : forall s,
  NoDup (id <$> l) ->
  (forall r, r ∈ l -> jobs s !! pretty (id r) = None) ->
  exists s',
    schedule_all fields_ok l s = (Ok tt, s') /\
    size (jobs s')
    = (size (jobs s)
       + length (List.filter
                   (fun r => is_ok (from_crontab fields_ok (cron r))) l))%nat /\
    (forall k j, jobs s !! k = Some j -> jobs s' !! k = Some j) /\
    (forall k, jobs s !! k = None ->
               (forall r, r ∈ l -> k <> pretty (id r)) ->
               jobs s' !! k = None) /\
    (forall r, r ∈ l ->
       match from_crontab fields_ok (cron r) with
       | Ok _ => exists j, jobs s' !! pretty (id r) = Some j /\
                           job_args j = (user_id r, message r, cron r)
       | Raise _ => jobs s' !! pretty (id r) = None
       end) /\
    log s' = (log s ++ loading_lines fields_ok l)%list /\
    reminders s' = reminders s /\ running s' = running s /\
    on_start s' = on_start s.
Proof.
  induction l as [|r l IH]; intros s Hnd Hfresh.
  - exists s. cbn. rewrite app_nil_r. repeat split; try done; try lia.
    intros r Hr. by apply elem_of_nil in Hr.
  - cbn [schedule_all]. unfold bind at 1.
    rewrite fmap_cons in Hnd. apply NoDup_cons in Hnd as [Hnotin Hnd].
    assert (Hother : forall r', r' ∈ l -> pretty (id r) <> pretty (id r')).
    { intros r' Hr' Heq. apply (inj pretty) in Heq. apply Hnotin.
      rewrite Heq. by apply list_elem_of_fmap_2. }
    destruct (schedule_job_runs fields_ok (id r) (user_id r) (cron r)
                (message r) s) as (s1 & -> & Hj1 & Hl1 & Hr1 & Hu1 & Ho1).
    destruct (IH s1 Hnd)
      as (s2 & -> & Hsz & Hkeep & Hnone & Hall & Hl2 & Hr2 & Hu2 & Ho2).
    { intros r' Hr'. rewrite Hj1.
      destruct (from_crontab fields_ok (cron r)).
      - rewrite lookup_insert_ne by by apply Hother.
        apply Hfresh. by apply list_elem_of_further.
      - apply Hfresh. by apply list_elem_of_further. }
    exists s2. split; [done|]. split.
    { rewrite Hsz, Hj1. cbn [List.filter].
      destruct (from_crontab fields_ok (cron r)); cbn.
      - rewrite map_size_insert_None
          by (apply Hfresh; apply list_elem_of_here). lia.
      - lia. }
    split.
    { intros k j Hk. apply Hkeep. rewrite Hj1.
      destruct (from_crontab fields_ok (cron r)); [|done].
      destruct (decide (pretty (id r) = k)) as [<-|Hne].
      - rewrite (Hfresh r (list_elem_of_here _ _)) in Hk. done.
      - by rewrite lookup_insert_ne. }
    split.
    { intros k Hk Hno. apply Hnone.
      - rewrite Hj1. destruct (from_crontab fields_ok (cron r)); [|done].
        rewrite lookup_insert_ne; [done|].
        intros Heq. by apply (Hno r (list_elem_of_here _ _)).
      - intros r' Hr'. apply Hno. by apply list_elem_of_further. }
    split.
    { intros r' Hr'. apply elem_of_cons in Hr' as [->|Hr']; [|by apply Hall].
      destruct (from_crontab fields_ok (cron r)) as [t|e] eqn:Ht.
      - exists {| job_trigger := t;
                  job_args := (user_id r, message r, cron r) |}.
        split; [|done]. apply Hkeep. rewrite Hj1. apply lookup_insert_eq.
      - apply Hnone.
        + rewrite Hj1. apply Hfresh, list_elem_of_here.
        + intros r' Hr'. by apply Hother. }
    split.
    { rewrite Hl2, Hl1. unfold loading_lines. cbn [flat_map].
      by rewrite <- app_assoc. }
    repeat split; congruence.
Qed.

(** The line logged for a loaded row that does not parse is among the
    lines of the loop. *)
Lemma loading_lines_failed fields_ok (l : list reminder) r e :
  r ∈ l ->
  from_crontab fields_ok (cron r) = Raise e ->
  (("Failed to schedule job " ++ pretty (id r) ++ ": " ++ exn_str e)%string,
   "error") ∈ loading_lines fields_ok l.
Proof.
  intros Hr He. unfold loading_lines.
  apply list_elem_of_In, in_flat_map. exists r.
  split; [by apply list_elem_of_In|]. rewrite He. by left.
Qed.

(** C9, as amended.  When the loader returns jobs with pairwise distinct
    ids, [start] on a scheduler that holds no jobs returns with the
    scheduler running and with exactly as many jobs registered as loaded
    rows parse: all of them when all parse.  Each row that parses is found
    under its id with its own arguments, and [delete_reminder] on its id
    returns [True] and removes it.  A row that does not parse is logged
    and skipped: the line "Failed to schedule job <id>: <why>" is logged at
    level "error", no job is registered under its id, and [delete_reminder]
    on its id returns [False].  The log of [start] is the loading line,
    then one line per row, then the line of the scheduler's start. *)
Theorem start_registers_loaded fields_ok (s : state) (f : loader_fn)
    (l : list reminder) :
  on_start s = Some f ->
  f (reminders s) = Ok l ->
  jobs s = ∅ ->
  NoDup (id <$> l) ->
  exists s',
    start fields_ok s = (Ok tt, s') /\
    running s' = true /\
    size (jobs s')
    = length (List.filter
                (fun r => is_ok (from_crontab fields_ok (cron r))) l) /\
    ((forall r, r ∈ l -> is_ok (from_crontab fields_ok (cron r)) = true) ->
     size (jobs s') = length l) /\
    log s'
    = (log s
       ++ [(("Loading " ++ pretty (length l)
             ++ " reminders from callback...")%string, "info")]
       ++ loading_lines fields_ok l
       ++ if running s then [] else [("Scheduler started.", "info")])%list /\
    forall r, r ∈ l ->
      match from_crontab fields_ok (cron r) with
      | Ok _ =>
          (exists j, jobs s' !! pretty (id r) = Some j /\
                     job_args j = (user_id r, message r, cron r)) /\
          (exists s'', delete_reminder (id r) s' = (Ok true, s'') /\
                       jobs s'' = delete (pretty (id r)) (jobs s'))
      | Raise e =>
          jobs s' !! pretty (id r) = None /\
          delete_reminder (id r) s' = (Ok false, s') /\
          (("Failed to schedule job " ++ pretty (id r) ++ ": "
            ++ exn_str e)%string, "error") ∈ log s'
      end.
Proof.
  intros Hon Hf Hempty Hnd. unfold start.
  unfold bind at 1. rewrite Hon. unfold try_except, call_loader.
  unfold bind at 1. rewrite Hf. unfold bind at 1. unfold logger at 1.
  match goal with
  | |- context [schedule_all fields_ok l ?s0] =>
      destruct (schedule_all_loaded fields_ok l s0 Hnd)
        as (s1 & -> & Hsz & _ & _ & Hall & Hlog & _ & Hrun & _)
  end.
  { intros r _. cbn. rewrite Hempty. apply lookup_empty. }
  cbn in Hsz, Hrun, Hlog. rewrite Hempty, map_size_empty in Hsz.
  assert (Hfinal : exists s',
             (if negb (running s1)
              then (scheduler_start ;;; logger "Scheduler started." "info") s1
              else ret tt s1) = (Ok tt, s') /\
             running s' = true /\ jobs s' = jobs s1 /\
             log s' = (log s1 ++ if running s then []
                                 else [("Scheduler started.", "info")])%list).
  { rewrite <- Hrun. destruct (running s1) eqn:Hr1; cbn.
    - exists s1. by rewrite app_nil_r.
    - eexists. by split. }
  destruct Hfinal as (s' & -> & Hr' & Hj' & Hl').
  assert (Hlog' : log s'
            = (log s
               ++ [(("Loading " ++ pretty (length l)
                     ++ " reminders from callback...")%string, "info")]
               ++ loading_lines fields_ok l
               ++ if running s then []
                  else [("Scheduler started.", "info")])%list).
  { rewrite Hl', Hlog. by rewrite <- !app_assoc. }
  exists s'. split; [done|]. split; [done|]. split; [by rewrite Hj'|].
  split.
  { intros Hok. rewrite Hj', Hsz. f_equal.
    clear -Hok. induction l as [|r l IH]; [done|]. cbn.
    rewrite (Hok r (list_elem_of_here _ _)). cbn. f_equal. apply IH.
    intros r' Hr'. apply Hok. by apply list_elem_of_further. }
  split; [exact Hlog'|].
  intros r Hr. specialize (Hall r Hr).
  destruct (from_crontab fields_ok (cron r)) as [t|e] eqn:Ht.
  - destruct Hall as (j & Hj & Hargs).
    split; [exists j; by rewrite Hj'|].
    unfold delete_reminder. rewrite Hj', Hj. eexists. split; [reflexivity|].
    cbn. by rewrite Hj'.
  - split; [by rewrite Hj'|]. split.
    + unfold delete_reminder. by rewrite Hj', Hall.
    + rewrite Hlog', !elem_of_app. right. right. left.
      by apply loading_lines_failed.
Qed.

(** C9 (amended) at a table with the jobs 1 and 2 that parse and a job 3
    that does not. *)
Lemma start_registers_loaded_witness :
  let s := init [row 1 "* * * * *"; row 2 "0 12 * * *"; row 3 "not a cron"] 4
                (Some StorageManager.get_all_reminders) in
  exists s',
    start any_fields s = (Ok tt, s') /\
    running s' = true /\
    size (jobs s') = 2%nat /\
    (exists j, jobs s' !! "1" = Some j) /\
    (exists j, jobs s' !! "2" = Some j) /\
    jobs s' !! "3" = None /\
    ("Failed to schedule job 3: Wrong number of fields; got 3, expected 5",
     "error") ∈ log s'.
Proof.
  cbn zeta.
  destruct (start_registers_loaded any_fields
              (init [row 1 "* * * * *"; row 2 "0 12 * * *";
                     row 3 "not a cron"] 4
                    (Some StorageManager.get_all_reminders))
              StorageManager.get_all_reminders
              [row 1 "* * * * *"; row 2 "0 12 * * *"; row 3 "not a cron"])
    as (s' & Hrun & Hr & Hsz & _ & _ & Hall).
  - reflexivity.
  - reflexivity.
  - reflexivity.
  - apply (bool_decide_unpack _). vm_compute. exact I.
  - exists s'. split; [done|]. split; [done|]. split; [exact Hsz|].
    split; [|split].
    + destruct (Hall (row 1 "* * * * *")) as [(j & Hj & _) _];
        [apply list_elem_of_here|]. by exists j.
    + destruct (Hall (row 2 "0 12 * * *")) as [(j & Hj & _) _];
        [apply list_elem_of_further, list_elem_of_here|]. by exists j.
    + destruct (Hall (row 3 "not a cron")) as (Hnone & _ & Hlog);
        [do 2 apply list_elem_of_further; apply list_elem_of_here|].
      split; [exact Hnone|exact Hlog].
Defined.

(** C9 as stated fails: a loader that returns one persisted job whose
    expression does not parse leaves no job registered, and the job cannot
    be removed by its id; the log says why it was skipped. *)
Lemma start_skips_unparsable_job :
  let s := init [row 1 "not a cron"] 2 (Some StorageManager.get_all_reminders) in
  on_start s = Some StorageManager.get_all_reminders /\
  StorageManager.get_all_reminders (reminders s) = Ok [row 1 "not a cron"] /\
  fst (start any_fields s) = Ok tt /\
  size (jobs (snd (start any_fields s))) = 0%nat /\
  jobs (snd (start any_fields s)) !! "1" = None /\
  fst (delete_reminder 1 (snd (start any_fields s))) = Ok false /\
  log (snd (start any_fields s))
  = [("Loading 1 reminders from callback...", "info");
     ("Failed to schedule job 1: Wrong number of fields; got 3, expected 5",
      "error");
     ("Scheduler started.", "info")].
Proof. cbn zeta. repeat split; vm_compute; reflexivity. Qed.

(** *** Adding a reminder *)

(** [ScheduleManager.add_reminder] validates first: an expression that does
    not parse raises before anything is registered. *)
Lemma add_reminder_invalid fields_ok reminder_id user_id cron message e s :
  from_crontab fields_ok cron = Raise e ->
  add_reminder fields_ok reminder_id user_id cron message s
  = (Raise (ValueError ("Invalid cron expression: " ++ exn_str e)), s).
Proof.
  intros He. unfold add_reminder. srun. rewrite He. cbn.
  by rewrite (from_crontab_raises _ _ _ He).
Qed.

(** With an expression that parses it registers the job. *)
Lemma add_reminder_valid fields_ok reminder_id user_id cron message t s :
  from_crontab fields_ok cron = Ok t ->
  exists s',
    add_reminder fields_ok reminder_id user_id cron message s = (Ok tt, s') /\
    jobs s' = <[pretty reminder_id :=
                  {| job_trigger := t; job_args := (user_id, message, cron) |}]>
                (jobs s) /\
    reminders s' = reminders s.
Proof.
  intros Ht. unfold add_reminder.
  unfold bind, try_except_ValueError, lift_result. rewrite Ht. cbn.
  destruct (schedule_job_valid fields_ok reminder_id user_id cron message t s Ht)
    as (s' & -> & Hj & Hr & _).
  by exists s'.
Qed.

(** The adapter writes the row before the expression is looked at. *)
Lemma adapter_add_reminder_invalid fields_ok user_id cron message e s :
  from_crontab fields_ok cron = Raise e ->
  exists s',
    adapter_add_reminder fields_ok user_id cron message s
    = (Raise (ValueError ("Invalid cron expression: " ++ exn_str e)), s') /\
    reminders s'
    = (reminders s ++ [{| id := next_id s; user_id := user_id;
                          cron := cron; message := message |}])%list /\
    jobs s' = jobs s.
Proof.
  intros He. unfold adapter_add_reminder.
  unfold bind at 1. unfold logger at 1.
  unfold bind at 1. unfold StorageManager.add_reminder at 1.
  unfold bind at 1. rewrite (add_reminder_invalid _ _ _ _ _ e _ He).
  eexists. by split.
Qed.

(** With an expression that parses the adapter stores the row, registers
    the job under the row's id and returns that id. *)
Lemma adapter_add_reminder_valid fields_ok user_id cron message t s :
  from_crontab fields_ok cron = Ok t ->
  exists s',
    adapter_add_reminder fields_ok user_id cron message s
    = (Ok (next_id s), s') /\
    reminders s'
    = (reminders s ++ [{| id := next_id s; user_id := user_id;
                          cron := cron; message := message |}])%list /\
    jobs s' = <[pretty (next_id s) :=
                  {| job_trigger := t; job_args := (user_id, message, cron) |}]>
                (jobs s).
Proof.
  intros Ht. unfold adapter_add_reminder.
  unfold bind at 1. unfold logger at 1.
  unfold bind at 1. unfold StorageManager.add_reminder at 1.
  unfold bind at 1.
  match goal with
  | |- context [add_reminder fields_ok ?i ?u ?c ?m ?s0] =>
      destruct (add_reminder_valid fields_ok i u c m t s0 Ht)
        as (s1 & -> & Hj & Hr)
  end.
  cbn in Hj, Hr. srun. eexists. split; [reflexivity|]. by cbn.
Qed.

(** The chat command parses, and with it validates, before it stores. *)
Lemma handle_reminder_add_invalid fields_ok reply_text telegram_id args e s :
  from_crontab fields_ok (join (take 5 args)) = Raise e ->
  exists r s',
    handle_reminder_add fields_ok reply_text telegram_id args s = (r, s') /\
    reminders s' = reminders s /\ next_id s' = next_id s /\
    jobs s' = jobs s.
Proof.
  intros He. unfold handle_reminder_add, parse_reminder_add_args.
  rewrite He. destruct (length args <? 6)%nat; srun;
    eexists _, _; (split; [reflexivity|done]).
Qed.

(** C1 at the failing input.  [AiAgentAdapter.add_reminder] with the
    expression "not a cron" raises the invalid-schedule [ValueError], and
    by then the row is in the [reminders] table; no job is registered. *)
Theorem adapter_add_reminder_stores_invalid_job fields_ok (s : state) :
  exists s',
    adapter_add_reminder fields_ok "u" "not a cron" "m" s
    = (Raise (ValueError
                "Invalid cron expression: Wrong number of fields; got 3, expected 5"),
       s') /\
    reminders s'
    = (reminders s ++ [{| id := next_id s; user_id := "u";
                          cron := "not a cron"; message := "m" |}])%list /\
    jobs s' = jobs s.
Proof.
  assert (He : from_crontab fields_ok "not a cron"
               = Raise (ValueError "Wrong number of fields; got 3, expected 5"))
    by (vm_compute; reflexivity).
  destruct (adapter_add_reminder_invalid fields_ok "u" "not a cron" "m" _ s He)
    as (s' & Hrun & Hrows & Hjobs).
  exists s'. by repeat split.
Qed.
End ScheduleFacts.

(** ** Further properties of the token functions *)

Module TokensMore.
Import Tokens TokenScenarios TokensTactics.

#[local] Arguments String.append : simpl never.
#[local] Arguments pretty : simpl never.
#[local] Arguments refresh_access_token : simpl never.
#[local] Arguments revoke_google_token : simpl never.
#[local] Arguments get_valid_token : simpl never.

(** A dictionary that holds a key is truthy. *)
Lemma truthy_of_lookup (d : dict) k v : d !! k = Some v -> dict_truthy d = true.
Proof.
  intros H. unfold dict_truthy. apply bool_decide_eq_true.
  intros ->. by rewrite lookup_empty in H.
Qed.

(** What a returning refresher leaves behind. *)
Lemma refresh_ok_world E uid td w td' d' w' :
  refresh_access_token E uid (td, w) = (Ok td', (d', w')) ->
  d' = td' /\
  user_tokens w' = <[uid := td']> (user_tokens w) /\
  sent w' = (sent w ++ [token_request E (get td "refresh_token")])%list /\
  clock_reads w' = S (S (clock_reads w)).
Proof. run_all. Qed.

(** What a raising refresher leaves behind. *)
Lemma refresh_raise_world E uid td w e d' w' :
  refresh_access_token E uid (td, w) = (Raise e, (d', w')) ->
  user_tokens w' = user_tokens w /\
  (sent w' = sent w \/
   sent w' = (sent w ++ [token_request E (get td "refresh_token")])%list) /\
  (truthy (get td "refresh_token") = false -> sent w' = sent w /\ d' = td).
Proof.
  run_all; repeat split; auto; try congruence.
  all: match goal with
       | H : truthy _ = false, H' : negb (truthy _) = false |- _ =>
           rewrite H in H'; discriminate
       end.
Qed.


(** *** [get_valid_token], case by case *)

(** With no record, or an empty one, the answer is [None]; nothing is sent
    and nothing is written. *)
Lemma get_valid_token_absent E uid w :
  opt_truthy (user_tokens w !! uid) = false ->
  exists w',
    get_valid_token E uid w = (Ok None, w') /\
    user_tokens w' = user_tokens w /\ sent w' = sent w /\
    calls w' = calls w /\ clock_reads w' = clock_reads w.
Proof.
  intros H. unfold get_valid_token. run. rewrite H. cbn.
  eexists. by split.
Qed.

(** With an expiry that is absent, [None], zero or empty, the stored
    record comes back as it is. *)
Lemma get_valid_token_no_expiry E uid w td :
  user_tokens w !! uid = Some td -> dict_truthy td = true ->
  truthy (get_default td "expires_at" (PInt 0)) = false ->
  exists w',
    get_valid_token E uid w = (Ok (Some td), w') /\
    user_tokens w' = user_tokens w /\ sent w' = sent w /\
    calls w' = calls w.
Proof.
  intros Hst Hd He. unfold get_valid_token. run. rewrite Hst. cbn.
  rewrite Hd. cbn. rewrite He. cbn. eexists. by split.
Qed.

(** With an expiry at least 300 seconds ahead, the stored record comes back
    as it is. *)
Lemma get_valid_token_fresh E uid w td e :
  user_tokens w !! uid = Some td ->
  td !! "expires_at" = Some (PInt e) ->
  clock E (clock_reads w) + 300 <= e ->
  exists w',
    get_valid_token E uid w = (Ok (Some td), w') /\
    user_tokens w' = user_tokens w /\ sent w' = sent w /\
    calls w' = calls w.
Proof.
  intros Hst He Hle. unfold get_valid_token. run. rewrite Hst. cbn.
  rewrite (truthy_of_lookup _ _ _ He). cbn. unfold get_default. rewrite He. cbn.
  destruct (Z.eqb_spec e 0); cbn; [eexists; by split|].
  destruct (Z.ltb_spec e (clock E (clock_reads w) + 300)); [lia|]. cbn.
  eexists. by split.
Qed.

(** With an expiry that is due, everything hinges on the refresher, which
    runs in a world [wr] that differs from [w] by one clock reading and two
    log lines. *)
Lemma get_valid_token_due E uid w td e :
  user_tokens w !! uid = Some td ->
  td !! "expires_at" = Some (PInt e) -> e <> 0 ->
  e < clock E (clock_reads w) + 300 ->
  exists wr,
    user_tokens wr = user_tokens w /\ sent wr = sent w /\
    clock_reads wr = S (clock_reads w) /\ calls wr = calls w /\
    match refresh_access_token E uid (td, wr) with
    | (Ok td', (_, w1)) =>
        exists w2,
          get_valid_token E uid w = (Ok (Some td'), w2) /\
          user_tokens w2 = user_tokens w1 /\ sent w2 = sent w1 /\
          clock_reads w2 = clock_reads w1 /\ calls w2 = calls w1
    | (Raise _, (d', w1)) =>
        exists w2,
          get_valid_token E uid w
          = (Ok (if (e <? clock E (clock_reads w))%Z then None else Some d'), w2) /\
          user_tokens w2 = user_tokens w1 /\ sent w2 = sent w1 /\
          clock_reads w2 = clock_reads w1 /\ calls w2 = calls w1
    end.
Proof.
  intros Hst He Hne Hlt. unfold get_valid_token. run.
  unfold opt_truthy, get_default.
  rewrite Hst. cbn. rewrite (truthy_of_lookup _ _ _ He), He. cbn.
  destruct (Z.eqb_spec e 0); [done|]. cbn.
  destruct (Z.ltb_spec e (clock E (clock_reads w) + 300)); [|lia]. cbn.
  match goal with
  | |- context [refresh_access_token E uid (td, ?wr)] => exists wr
  end.
  repeat split.
  destruct (refresh_access_token E uid _) as [[td'|x] [d' w']]; cbn;
    [eexists; by split|].
  destruct (Z.ltb_spec (e - clock E (clock_reads w)) 0);
    destruct (Z.ltb_spec e (clock E (clock_reads w))); try lia;
    cbn; eexists; by split.
Qed.


(** X1.  When nothing is due (no record, or an expiry that is absent, zero,
    or at least 300 seconds ahead of the clock), [get_valid_token] answers
    with the stored record as it is ([None] for no record or an empty one),
    sends no request, runs no refresher and writes nothing. *)
Theorem get_valid_token_nothing_to_renew E uid w :
  match user_tokens w !! uid with
  | Some td =>
      match td !! "expires_at" with
      | Some (PInt e) => e = 0 \/ clock E (clock_reads w) + 300 <= e
      | Some (PStr s) => s = EmptyString
      | Some PNone | None => True
      end
  | None => True
  end ->
  exists w',
    get_valid_token E uid w
    = (Ok (if opt_truthy (user_tokens w !! uid) then user_tokens w !! uid
           else None), w') /\
    user_tokens w' = user_tokens w /\ sent w' = sent w /\ calls w' = calls w.
Proof.
  intros H.
  destruct (opt_truthy (user_tokens w !! uid)) eqn:Htr.
  2: { destruct (get_valid_token_absent E uid w Htr) as (w' & ? & ? & ? & ? & _).
       by exists w'. }
  destruct (user_tokens w !! uid) as [td|] eqn:Hst; [|done]. cbn in Htr.
  destruct (td !! "expires_at") as [[|e|x]|] eqn:He.
  - apply (get_valid_token_no_expiry E uid w td Hst Htr).
    unfold get_default. by rewrite He.
  - destruct H as [->|Hle].
    + apply (get_valid_token_no_expiry E uid w td Hst Htr).
      unfold get_default. by rewrite He.
    + by apply (get_valid_token_fresh E uid w td e).
  - subst x. apply (get_valid_token_no_expiry E uid w td Hst Htr).
    unfold get_default. by rewrite He.
  - apply (get_valid_token_no_expiry E uid w td Hst Htr).
    unfold get_default. by rewrite He.
Qed.


(** X1 at a record that expires 1000 seconds from now. *)
Lemma get_valid_token_nothing_to_renew_witness :
  let E := env_of 1000 (status_only 500) in
  let w := world_of {[ "u" := record 2000 ]} in
  exists w',
    get_valid_token E "u" w
    = (Ok (if opt_truthy (user_tokens w !! "u") then user_tokens w !! "u"
           else None), w') /\
    user_tokens w' = user_tokens w /\ sent w' = sent w /\ calls w' = calls w.
Proof.
  cbn zeta.
  apply (get_valid_token_nothing_to_renew (env_of 1000 (status_only 500)) "u"
           (world_of {[ "u" := record 2000 ]})).
  vm_compute. right. discriminate.
Defined.


(** X2.  [get_valid_token] writes to no row but the user's own, never
    removes that row, and when it changes it the new content is the record
    it returns; it sends at most one request. *)
Theorem get_valid_token_touches_own_row_only E uid w :
  let r := fst (get_valid_token E uid w) in
  let w' := snd (get_valid_token E uid w) in
  (forall u, u <> uid -> user_tokens w' !! u = user_tokens w !! u) /\
  (user_tokens w' !! uid = user_tokens w !! uid \/
   exists td', r = Ok (Some td') /\ user_tokens w' !! uid = Some td') /\
  (sent w' = sent w \/ exists rq, sent w' = (sent w ++ [rq])%list).
Proof.
  cbn zeta.
  destruct (opt_truthy (user_tokens w !! uid)) eqn:Htr.
  2: { destruct (get_valid_token_absent E uid w Htr) as (w' & Hrun & ? & ? & _).
       rewrite Hrun. cbn. repeat split; [intros; congruence|left; congruence..]. }
  destruct (user_tokens w !! uid) as [td|] eqn:Hst; [|done]. cbn in Htr.
  destruct (truthy (get_default td "expires_at" (PInt 0))) eqn:Hex.
  2: { destruct (get_valid_token_no_expiry E uid w td Hst Htr Hex)
         as (w' & Hrun & ? & ? & _).
       rewrite Hrun. cbn. repeat split; [intros; congruence|left; congruence..]. }
  unfold get_default in Hex.
  destruct (td !! "expires_at") as [[|e|x]|] eqn:He; cbn in Hex; try done.
  - destruct (Z.eqb_spec e 0) as [|Hne]; [done|].
    destruct (Z.lt_ge_cases e (clock E (clock_reads w) + 300)) as [Hlt|Hge].
    2: { destruct (get_valid_token_fresh E uid w td e Hst He Hge)
           as (w' & Hrun & ? & ? & _).
         rewrite Hrun. cbn. repeat split; [intros; congruence|left; congruence..]. }
    destruct (get_valid_token_due E uid w td e Hst He Hne Hlt)
      as (wr & Hut & Hsent & _ & _ & Hres).
    destruct (refresh_access_token E uid (td, wr)) as [[td'|x] [d' w1]] eqn:Hr.
    + destruct Hres as (w2 & -> & Hut2 & Hsent2 & _). cbn.
      destruct (refresh_ok_world _ _ _ _ _ _ _ Hr) as (_ & Hut1 & Hsent1 & _).
      rewrite Hut2, Hut1, Hut, Hsent2, Hsent1, Hsent. repeat split.
      * intros u Hu. by rewrite lookup_insert_ne.
      * right. exists td'. by rewrite lookup_insert_eq.
      * right. by eexists.
    + destruct Hres as (w2 & -> & Hut2 & Hsent2 & _). cbn.
      destruct (refresh_raise_world _ _ _ _ _ _ _ Hr) as (Hut1 & Hsent1 & _).
      rewrite Hut2, Hut1, Hut, Hsent2, Hst. repeat split; auto.
      destruct Hsent1 as [->| ->]; rewrite Hsent; [by left|right; by eexists].
  - (* a string expiry: the subtraction raises *)
    unfold get_valid_token. run. rewrite Hst. cbn. rewrite Htr. cbn.
    unfold get_default. rewrite He. cbn. rewrite Hex. cbn.
    rewrite Hst. repeat split; auto.
Qed.

(** X3.  A record without a usable refresh token is never renewed and never
    costs a request: past its expiry the answer is [None], otherwise the
    stored record itself. *)
Theorem get_valid_token_without_refresh_token E uid w td e :
  user_tokens w !! uid = Some td ->
  truthy (get td "refresh_token") = false ->
  td !! "expires_at" = Some (PInt e) ->
  exists w',
    get_valid_token E uid w
    = (Ok (if negb (e =? 0)%Z && (e <? clock E (clock_reads w))%Z
           then None else Some td), w') /\
    sent w' = sent w /\ user_tokens w' = user_tokens w.
Proof.
  intros Hst Hrt He.
  destruct (Z.eqb_spec e 0) as [->|Hne]; cbn.
  { destruct (get_valid_token_no_expiry E uid w td Hst
                (truthy_of_lookup _ _ _ He)) as (w' & ? & ? & ? & _).
    - unfold get_default. by rewrite He.
    - by exists w'. }
  destruct (Z.lt_ge_cases e (clock E (clock_reads w) + 300)) as [Hlt|Hge].
  2: { destruct (get_valid_token_fresh E uid w td e Hst He Hge)
         as (w' & ? & ? & ? & _).
       destruct (Z.ltb_spec e (clock E (clock_reads w))); [lia|]. by exists w'. }
  destruct (get_valid_token_due E uid w td e Hst He Hne Hlt)
    as (wr & Hut & Hsent & _ & _ & Hres).
  destruct (refresh_access_token E uid (td, wr)) as [[td'|x] [d' w1]] eqn:Hr.
  - destruct (TokensFacts.refresh_raises_untouched E uid td wr (or_introl Hrt))
      as (x & w0 & Hx).
    rewrite Hx in Hr. discriminate.
  - destruct Hres as (w2 & Hrun & Hut2 & Hsent2 & _).
    destruct (refresh_raise_world _ _ _ _ _ _ _ Hr) as (Hut1 & _ & Hno).
    destruct (Hno Hrt) as [Hs ->].
    exists w2. split; [exact Hrun|]. split; congruence.
Qed.


(** X3 at a record without refresh token that expired 100 seconds ago. *)
Lemma get_valid_token_without_refresh_token_witness :
  let E := env_of 1000 (status_only 500) in
  let w := world_of {[ "u" := record_without_refresh 900 ]} in
  exists w', get_valid_token E "u" w = (Ok None, w') /\ sent w' = [].
Proof.
  cbn zeta.
  destruct (get_valid_token_without_refresh_token
              (env_of 1000 (status_only 500)) "u"
              (world_of {[ "u" := record_without_refresh 900 ]})
              (record_without_refresh 900) 900)
    as (w' & Hrun & Hsent & _).
  - reflexivity.
  - reflexivity.
  - reflexivity.
  - exists w'. split; [exact Hrun|exact Hsent].
Defined.



(** The fields of the record a returning refresher hands back. *)
Lemma refresh_ok_record E uid td w td' d' w' resp body tok life :
  refresh_access_token E uid (td, w) = (Ok td', (d', w')) ->
  provider E (length (sent w)) (token_request E (get td "refresh_token"))
    = Ok resp ->
  json resp = Some body ->
  body !! "access_token" = Some tok ->
  get_default body "expires_in" (PInt 3600) = PInt life ->
  td' !! "expires_at" = Some (PInt (clock E (S (clock_reads w)) + life)) /\
  td' !! "access_token" = Some tok.
Proof. run_all; split; by simplify_map_eq. Qed.

(** X4.  A due record whose refresh succeeds is refreshed with exactly one
    request; the record returned is the one now stored, it carries the new
    access token and expires at the refresher's clock reading plus the
    lifetime.  A second call whose clock reading is still 300 seconds
    before that expiry returns the same record and sends nothing more. *)
Theorem get_valid_token_refreshes_once E uid w td e resp body tok life :
  user_tokens w !! uid = Some td ->
  td !! "expires_at" = Some (PInt e) -> e <> 0 ->
  e < clock E (clock_reads w) + 300 ->
  truthy (get td "refresh_token") = true ->
  provider E (length (sent w)) (token_request E (get td "refresh_token"))
    = Ok resp ->
  status_code resp = 200 -> json resp = Some body ->
  body !! "access_token" = Some tok ->
  get_default body "expires_in" (PInt 3600) = PInt life ->
  exists td' w1,
    get_valid_token E uid w = (Ok (Some td'), w1) /\
    user_tokens w1 !! uid = Some td' /\
    td' !! "access_token" = Some tok /\
    td' !! "expires_at"
      = Some (PInt (clock E (S (S (clock_reads w))) + life)) /\
    sent w1 = (sent w ++ [token_request E (get td "refresh_token")])%list /\
    (clock E (S (S (S (clock_reads w)))) + 300
       <= clock E (S (S (clock_reads w))) + life ->
     exists w2,
       get_valid_token E uid w1 = (Ok (Some td'), w2) /\
       sent w2 = sent w1 /\ user_tokens w2 = user_tokens w1).
Proof.
  intros Hst He Hne Hlt Hrt Hp Hs Hj Htok Hlife.
  destruct (get_valid_token_due E uid w td e Hst He Hne Hlt)
    as (wr & Hut & Hsent & Hclock & _ & Hres).
  rewrite <- Hsent in Hp.
  destruct (TokensFacts.refresh_returns E uid td wr resp body tok life
              Hrt Hp Hs Hj Htok Hlife) as (td' & w1 & Hr).
  rewrite Hr in Hres. destruct Hres as (w2 & Hrun & Hut2 & Hsent2 & Hclock2 & _).
  destruct (refresh_ok_world _ _ _ _ _ _ _ Hr) as (_ & Hut1 & Hsent1 & Hclock1).
  destruct (refresh_ok_record _ _ _ _ _ _ _ _ _ _ _ Hr Hp Hj Htok Hlife)
    as (Hexp & Hat).
  rewrite Hclock in Hexp, Hclock1.
  assert (Hrow : user_tokens w2 !! uid = Some td')
    by (by rewrite Hut2, Hut1, lookup_insert_eq).
  exists td', w2. split; [exact Hrun|]. split; [exact Hrow|].
  split; [exact Hat|]. split; [exact Hexp|].
  split; [by rewrite Hsent2, Hsent1, Hsent|].
  intros Hlater.
  destruct (get_valid_token_fresh E uid w2 td' _ Hrow Hexp) as (w3 & ? & ? & ? & _).
  - by rewrite Hclock2, Hclock1.
  - by exists w3.
Qed.


(** X4 at a record that expires in 100 seconds and a provider that answers
    with a new token of 3599 seconds. *)
Lemma get_valid_token_refreshes_once_witness :
  let E := env_of 1000 (ok_200 good_body) in
  let w := world_of {[ "u" := record 1100 ]} in
  exists td' w1,
    get_valid_token E "u" w = (Ok (Some td'), w1) /\
    user_tokens w1 !! "u" = Some td' /\
    td' !! "access_token" = Some (PStr "new") /\
    td' !! "expires_at" = Some (PInt 4599) /\
    length (sent w1) = 1%nat.
Proof.
  cbn zeta.
  destruct (get_valid_token_refreshes_once
              (env_of 1000 (ok_200 good_body)) "u"
              (world_of {[ "u" := record 1100 ]}) (record 1100) 1100
              {| status_code := 200; text := "{...}"; json := Some good_body |}
              good_body (PStr "new") 3599)
    as (td' & w1 & Hrun & Hst & Htok & Hexp & Hsent & _).
  - reflexivity.
  - reflexivity.
  - discriminate.
  - reflexivity.
  - reflexivity.
  - reflexivity.
  - reflexivity.
  - reflexivity.
  - reflexivity.
  - reflexivity.
  - exists td', w1. split; [exact Hrun|]. split; [exact Hst|].
    split; [exact Htok|]. split; [exact Hexp|]. by rewrite Hsent.
Defined.


(** X5.  With a clock since the epoch, [is_user_authenticated] answers
    [True] exactly when the user has a stored record whose [expires_at] is
    an integer the clock is strictly before.  It sends nothing, writes
    nothing and runs no refresher; and whoever it accepts is served by
    [get_valid_token], which then never answers [None]. *)
Theorem is_user_authenticated_strict E uid w :
  0 <= clock E (clock_reads w) ->
  let r := fst (is_user_authenticated E uid w) in
  let w' := snd (is_user_authenticated E uid w) in
  (r = Ok true <->
     exists td e, user_tokens w !! uid = Some td /\
                  td !! "expires_at" = Some (PInt e) /\
                  clock E (clock_reads w) < e) /\
  user_tokens w' = user_tokens w /\ sent w' = sent w /\ calls w' = calls w /\
  (r = Ok true ->
     exists td', fst (get_valid_token E uid w) = Ok (Some td')).
Proof.
  intros Hnow. cbn zeta.
  assert (Hiff : fst (is_user_authenticated E uid w) = Ok true <->
            exists td e, user_tokens w !! uid = Some td /\
                         td !! "expires_at" = Some (PInt e) /\
                         clock E (clock_reads w) < e).
  { unfold is_user_authenticated, is_token_valid_now. run. unfold opt_truthy, get.
    split.
    - destruct (user_tokens w !! uid) as [td|] eqn:Hst; cbn; [|done].
      destruct (dict_truthy td); cbn; [|done].
      destruct (td !! "expires_at") as [[|e|x]|] eqn:He; cbn; try done.
      + destruct (Z.eqb_spec e 0); cbn; [done|].
        intros [= Hlt]. exists td, e. repeat split; try done. by apply Z.ltb_lt.
      + by destruct (String.eqb x EmptyString).
    - intros (td & e & -> & He & Hlt). cbn.
      rewrite (truthy_of_lookup _ _ _ He), He. cbn.
      destruct (Z.eqb_spec e 0); [lia|]. cbn. f_equal. by apply Z.ltb_lt. }
  split; [exact Hiff|].
  split; [|split; [|split]].
  1-3: unfold is_user_authenticated, is_token_valid_now; run_all.
  intros Hr. apply Hiff in Hr as (td & e & Hst & He & Hlt).
  destruct (Z.lt_ge_cases e (clock E (clock_reads w) + 300)) as [Hdue|Hge].
  2: { destruct (get_valid_token_fresh E uid w td e Hst He Hge) as (w' & -> & _).
       by exists td. }
  destruct (get_valid_token_due E uid w td e Hst He ltac:(lia) Hdue)
    as (wr & _ & _ & _ & _ & Hres).
  destruct (refresh_access_token E uid (td, wr)) as [[td'|x] [d' w1]].
  - destruct Hres as (w2 & -> & _). by exists td'.
  - destruct Hres as (w2 & -> & _). cbn.
    destruct (Z.ltb_spec e (clock E (clock_reads w))); [lia|]. by exists d'.
Qed.


(** X5 at a record that expires 1000 seconds from now. *)
Lemma is_user_authenticated_strict_witness :
  let E := env_of 1000 (status_only 500) in
  let w := world_of {[ "u" := record 2000 ]} in
  (fst (is_user_authenticated E "u" w) = Ok true <->
     exists td e, user_tokens w !! "u" = Some td /\
                  td !! "expires_at" = Some (PInt e) /\
                  clock E (clock_reads w) < e) /\
  sent (snd (is_user_authenticated E "u" w)) = sent w.
Proof.
  cbn zeta.
  destruct (is_user_authenticated_strict (env_of 1000 (status_only 500)) "u"
              (world_of {[ "u" := record 2000 ]}))
    as (Hiff & _ & Hsent & _).
  - discriminate.
  - split; [exact Hiff|exact Hsent].
Defined.


(** X6.  [ensure_token_expiry] leaves a token that has an [expires_at] key
    alone, whatever is under it.  To a token without one and with an integer
    [expires_in] it adds the clock reading plus that lifetime, and nothing
    else; doing it again changes nothing; and the strict validator accepts
    the result at that reading exactly when the lifetime is positive. *)
Theorem ensure_token_expiry_fills_once E token w n :
  token !! "expires_at" = None ->
  token !! "expires_in" = Some (PInt n) ->
  let now := clock E (clock_reads w) in
  let filled := <["expires_at" := PInt (now + n)]> token in
  (exists w', ensure_token_expiry E token w = (Ok filled, w')) /\
  (forall w2, ensure_token_expiry E filled w2 = (Ok filled, w2)) /\
  (forall t v w2, t !! "expires_at" = Some v ->
                  ensure_token_expiry E t w2 = (Ok t, w2)) /\
  (forall k, k <> "expires_at" -> filled !! k = token !! k) /\
  (0 <= now -> is_token_valid now filled = Ok (0 <? n)%Z).
Proof.
  intros Hat Hin now filled.
  assert (Hkeep : forall t v w2, t !! "expires_at" = Some v ->
                                 ensure_token_expiry E t w2 = (Ok t, w2)).
  { intros t v w2 Ht. unfold ensure_token_expiry. by rewrite Ht. }
  split; [|split; [|split; [exact Hkeep|split]]].
  - unfold ensure_token_expiry. rewrite Hat, Hin. run. by eexists.
  - intros w2. apply (Hkeep _ (PInt (now + n))). apply lookup_insert_eq.
  - intros k Hk. unfold filled. by rewrite lookup_insert_ne.
  - intros Hnow. unfold is_token_valid, get.
    rewrite (truthy_of_lookup filled "expires_at" (PInt (now + n)))
      by apply lookup_insert_eq.
    unfold filled. rewrite lookup_insert_eq. cbn.
    destruct (Z.eqb_spec (now + n) 0) as [H0|H0]; cbn.
    + f_equal. symmetry. apply Z.ltb_ge. lia.
    + f_equal. destruct (Z.ltb_spec 0 n); [apply Z.ltb_lt|apply Z.ltb_ge]; lia.
Qed.


(** X6 at a token response with a lifetime of 3599 seconds, read at 1000. *)
Lemma ensure_token_expiry_fills_once_witness :
  exists w',
    ensure_token_expiry (env_of 1000 (status_only 500)) good_body (world_of ∅)
    = (Ok (<["expires_at" := PInt 4599]> good_body), w').
Proof.
  destruct (ensure_token_expiry_fills_once (env_of 1000 (status_only 500))
              good_body (world_of ∅) 3599) as (Hrun & _).
  - reflexivity.
  - reflexivity.
  - exact Hrun.
Defined.



(** [delete_user_token] returns and the row is gone. *)
Lemma delete_user_token_world E uid w :
  exists w',
    delete_user_token E uid w
    = (Ok (bool_decide (is_Some (user_tokens w !! uid))), w') /\
    user_tokens w' = delete uid (user_tokens w).
Proof.
  unfold delete_user_token. run.
  destruct (opt_truthy (user_tokens w !! uid)).
  - match goal with
    | |- context [revoke_google_token E ?td ?w0] =>
        destruct (TokensFacts.revoke_returns E td w0) as (b & w1 & Hr & Hut)
    end.
    rewrite Hr. cbn in *. rewrite Hut.
    destruct (user_tokens w !! uid) eqn:Hst; cbn; eexists;
      (split; [reflexivity|]); cbn; rewrite ?Hut; try done.
    by rewrite delete_id.
  - cbn. destruct (user_tokens w !! uid) eqn:Hst; cbn; eexists;
      (split; [reflexivity|]); cbn; try done.
    by rewrite delete_id.
Qed.

(** X7.  Deleting is final: whatever the provider answers to the revoke,
    [delete_user_token] returns, and from then on [get_valid_token] answers
    [None] without a request, and a second delete answers [False], runs no
    revoke and sends nothing. *)
Theorem delete_user_token_is_final E uid w :
  exists b w1,
    delete_user_token E uid w = (Ok b, w1) /\
    (exists w2, get_valid_token E uid w1 = (Ok None, w2) /\ sent w2 = sent w1) /\
    (exists w2, delete_user_token E uid w1 = (Ok false, w2) /\
                calls w2 = calls w1 /\ sent w2 = sent w1).
Proof.
  destruct (delete_user_token_world E uid w) as (w1 & Hrun & Hut).
  assert (Hgone : user_tokens w1 !! uid = None) by (by rewrite Hut, lookup_delete_eq).
  eexists _, w1. split; [exact Hrun|]. split.
  - destruct (get_valid_token_absent E uid w1) as (w2 & ? & ? & ? & _).
    { by rewrite Hgone. }
    by exists w2.
  - unfold delete_user_token. run. rewrite Hgone. cbn. rewrite Hgone. cbn.
    eexists. by split.
Qed.

(** *** The two ways to the calendar *)

Section Calendar.
Variable event : Type.
Variable google_create : value -> event -> M world dict.
Variable event_name : event -> string.

(** X8.  The agent's [create_calendar_event] hands the stored access token
    to the calendar call as it is: it never looks at [expires_at], runs no
    refresher and sends no request of its own, so an expired token is
    passed on.  Without a record, or without an access token in it, it
    returns a message instead of raising, and the calendar is not called. *)
Theorem adapter_create_calendar_event_uses_stored_token
    (uid : string) (ev : event) (w : world) :
  match user_tokens w !! uid with
  | Some td =>
      if dict_truthy td then
        if truthy (get td "access_token") then
          exists w0,
            user_tokens w0 = user_tokens w /\ sent w0 = sent w /\
            calls w0 = calls w /\ clock_reads w0 = clock_reads w /\
            match google_create (get td "access_token") ev w0 with
            | (Ok result, w1) =>
                exists w2,
                  adapter_create_calendar_event google_create event_name
                    uid ev w = (Ok (inl result), w2)
            | (Raise e, w1) =>
                adapter_create_calendar_event google_create event_name
                  uid ev w = (Raise e, w1)
            end
        else
          exists w2,
            adapter_create_calendar_event google_create event_name uid ev w
            = (Ok (inr "Failed to create event: Access token not found."), w2)
            /\ sent w2 = sent w /\ user_tokens w2 = user_tokens w
      else
        exists w2,
          adapter_create_calendar_event google_create event_name uid ev w
          = (Ok (inr "Failed to create event: User not authenticated."), w2)
          /\ sent w2 = sent w /\ user_tokens w2 = user_tokens w
  | None =>
      exists w2,
        adapter_create_calendar_event google_create event_name uid ev w
        = (Ok (inr "Failed to create event: User not authenticated."), w2)
        /\ sent w2 = sent w /\ user_tokens w2 = user_tokens w
  end.
Proof.
  unfold adapter_create_calendar_event. run. unfold opt_truthy.
  destruct (user_tokens w !! uid) as [td|]; cbn; [|eexists; by split].
  destruct (dict_truthy td); cbn; [|eexists; by split].
  destruct (truthy (get td "access_token")); cbn; [|eexists; by split].
  match goal with
  | |- context [google_create _ ev ?w0] => exists w0
  end.
  repeat (split; [reflexivity|]).
  destruct (google_create _ _ _) as [[result|e] w1]; cbn; [by eexists|done].
Qed.


End Calendar.

End TokensMore.

(** ** Further properties of the scheduling side *)

Module ScheduleMore.
Import Schedule ScheduleScenarios ScheduleTactics.

#[local] Arguments String.append : simpl never.
#[local] Arguments pretty : simpl never.
#[local] Arguments from_crontab : simpl never.
#[local] Arguments format_message : simpl never.

(** *** Loading at start *)

(** [schedule_job] always returns and touches the job store only. *)
Lemma schedule_job_returns fields_ok reminder_id user_id cron message s :
  exists s',
    schedule_job fields_ok reminder_id user_id cron message s = (Ok tt, s') /\
    jobs s' = match from_crontab fields_ok cron with
              | Ok t => <[pretty reminder_id :=
                            {| job_trigger := t;
                               job_args := (user_id, message, cron) |}]> (jobs s)
              | Raise _ => jobs s
              end /\
    reminders s' = reminders s /\ next_id s' = next_id s /\
    running s' = running s /\ on_start s' = on_start s /\
    callback s' = callback s /\ awaited s' = awaited s.
Proof.
  unfold schedule_job. srun.
  destruct (from_crontab fields_ok cron) as [t|e] eqn:Ht; cbn.
  - eexists. by split.
  - rewrite (ScheduleFacts.from_crontab_raises _ _ _ Ht). eexists. by split.
Qed.

(** The loop of [start] over any rows: a job is registered afterwards
    exactly if it was before or a row of its id parses. *)
Lemma schedule_all_returns fields_ok (l : list reminder) : forall s,
  exists s',
    schedule_all fields_ok l s = (Ok tt, s') /\
    reminders s' = reminders s /\ next_id s' = next_id s /\
    running s' = running s /\ on_start s' = on_start s /\
    callback s' = callback s /\ awaited s' = awaited s /\
    forall k, is_Some (jobs s' !! k) <->
              is_Some (jobs s !! k) \/
              exists r, r ∈ l /\
                        is_ok (from_crontab fields_ok (cron r)) = true /\
                        k = pretty (id r).
Proof.
  induction l as [|r l IH]; intros s.
  - exists s. cbn. repeat split; try done.
    + by left.
    + intros [H|(r & Hr & _)]; [done|]. by apply elem_of_nil in Hr.
  - cbn [schedule_all]. unfold bind at 1.
    destruct (schedule_job_returns fields_ok (id r) (user_id r) (cron r)
                (message r) s)
      as (s1 & -> & Hj1 & Hr1 & Hn1 & Hu1 & Ho1 & Hc1 & Ha1).
    destruct (IH s1) as (s2 & -> & Hr2 & Hn2 & Hu2 & Ho2 & Hc2 & Ha2 & Hdom).
    exists s2. repeat split; try congruence.
    + intros Hk. apply Hdom in Hk as [Hk|(r' & Hr' & Hok & ->)].
      * rewrite Hj1 in Hk.
        destruct (from_crontab fields_ok (cron r)) as [t|e] eqn:Ht; [|by left].
        destruct (decide (pretty (id r) = k)) as [<-|Hne].
        -- right. exists r. split; [apply list_elem_of_here|].
           by rewrite Ht.
        -- rewrite lookup_insert_ne in Hk by done. by left.
      * right. exists r'. split; [by apply list_elem_of_further|done].
    + intros Hk. apply Hdom.
      destruct Hk as [Hk|(r' & Hr' & Hok & ->)].
      * left. rewrite Hj1.
        destruct (from_crontab fields_ok (cron r)) as [t|e]; [|done].
        destruct (decide (pretty (id r) = k)) as [<-|Hne].
        -- rewrite lookup_insert_eq. by eexists.
        -- by rewrite lookup_insert_ne.
      * apply elem_of_cons in Hr' as [->|Hr'].
        -- left. rewrite Hj1.
           destruct (from_crontab fields_ok (cron r)) as [t|e]; [|done].
           rewrite lookup_insert_eq. by eexists.
        -- right. by exists r'.
Qed.

(** What the second half of [start] does. *)
Lemma start_scheduler_returns s :
  exists s',
    (if negb (running s)
     then (scheduler_start ;;; logger "Scheduler started." "info") s
     else ret tt s) = (Ok tt, s') /\
    running s' = true /\ jobs s' = jobs s /\ reminders s' = reminders s /\
    next_id s' = next_id s /\
    log s' = (log s ++ if running s then []
                       else [("Scheduler started.", "info")])%list.
Proof.
  destruct (running s) eqn:Hr; cbn.
  - exists s. by rewrite app_nil_r.
  - eexists. split; [reflexivity|]. by cbn.
Qed.

(** [start] in its three cases: no loader, a loader that raises, a loader
    that returns rows. *)
Lemma start_cases fields_ok s :
  exists s',
    start fields_ok s = (Ok tt, s') /\
    running s' = true /\ reminders s' = reminders s /\
    next_id s' = next_id s /\
    match on_start s with
    | None => jobs s' = jobs s
    | Some f =>
        match f (reminders s) with
        | Raise e =>
            jobs s' = jobs s /\
            log s' = (log s
                      ++ [(("Error loading initial reminders: "
                            ++ exn_str e)%string, "error")]
                      ++ if running s then []
                         else [("Scheduler started.", "info")])%list
        | Ok l =>
            forall k, is_Some (jobs s' !! k) <->
                      is_Some (jobs s !! k) \/
                      exists r, r ∈ l /\
                                is_ok (from_crontab fields_ok (cron r)) = true /\
                                k = pretty (id r)
        end
    end.
Proof.
  unfold start. unfold bind at 1.
  destruct (on_start s) as [f|] eqn:Hon.
  - unfold try_except, call_loader. unfold bind at 1.
    destruct (f (reminders s)) as [l|e] eqn:Hf.
    + unfold bind at 1. unfold logger at 1.
      match goal with
      | |- context [schedule_all fields_ok l ?s0] =>
          destruct (schedule_all_returns fields_ok l s0)
            as (s1 & -> & Hr1 & Hn1 & Hu1 & _ & _ & _ & Hdom)
      end.
      cbn in Hr1, Hn1, Hu1, Hdom.
      destruct (start_scheduler_returns s1) as (s' & -> & Hr' & Hj' & Hm' & Hn' & _).
      exists s'. repeat split; try congruence.
      * rewrite Hj'. apply Hdom.
      * rewrite Hj'. apply Hdom.
    + unfold logger at 1.
      match goal with
      | |- context [(if negb (running ?s0) then _ else _) = _] =>
          destruct (start_scheduler_returns s0)
            as (s' & -> & Hr' & Hj' & Hm' & Hn' & Hl')
      end.
      cbn in Hj', Hm', Hn', Hl'. exists s'. repeat split; try done.
      by rewrite Hl', <- app_assoc.
  - unfold ret at 1.
    destruct (start_scheduler_returns s) as (s' & -> & Hr' & Hj' & Hm' & Hn' & _).
    by exists s'.
Qed.

(** X10.  [start] never raises, whatever the loader does: it returns with
    the scheduler running, the table as it was and every job that was
    registered still registered.  Without a loader, or when the loader
    raises, the job store is as before; the loader's exception is logged
    at level "error". *)
Theorem start_never_raises fields_ok (s : state) :
  exists s',
    start fields_ok s = (Ok tt, s') /\
    running s' = true /\
    reminders s' = reminders s /\
    (forall k, is_Some (jobs s !! k) -> is_Some (jobs s' !! k)) /\
    (on_start s = None -> jobs s' = jobs s) /\
    (forall f e,
       on_start s = Some f -> f (reminders s) = Raise e ->
       jobs s' = jobs s /\
       log s' = (log s
                 ++ [(("Error loading initial reminders: "
                       ++ exn_str e)%string, "error")]
                 ++ if running s then []
                    else [("Scheduler started.", "info")])%list).
Proof.
  destruct (start_cases fields_ok s) as (s' & Hrun & Hr & Hm & _ & Hcase).
  exists s'. do 3 (split; [done|]). split; [|split].
  - intros k Hk. destruct (on_start s) as [f|]; [|by rewrite Hcase].
    destruct (f (reminders s)) as [l|e].
    + apply Hcase. by left.
    + destruct Hcase as [-> _]. done.
  - intros Hon. by rewrite Hon in Hcase.
  - intros f e Hon Hf. by rewrite Hon, Hf in Hcase.
Qed.

(** X11.  When the loader returns rows, [start] leaves registered exactly
    the jobs that were registered before and the jobs of the rows whose
    expression parses, under the rows' ids; a row whose expression does not
    parse adds nothing.  No hypothesis on the rows: ids may repeat, and
    jobs may be registered already. *)
Theorem start_registers_exactly_the_parsable fields_ok (s : state)
    (f : loader_fn) (l : list reminder) :
  on_start s = Some f ->
  f (reminders s) = Ok l ->
  exists s',
    start fields_ok s = (Ok tt, s') /\
    forall k, is_Some (jobs s' !! k) <->
              is_Some (jobs s !! k) \/
              exists r, r ∈ l /\
                        is_ok (from_crontab fields_ok (cron r)) = true /\
                        k = pretty (id r).
Proof.
  intros Hon Hf.
  destruct (start_cases fields_ok s) as (s' & Hrun & _ & _ & _ & Hcase).
  rewrite Hon, Hf in Hcase. by exists s'.
Qed.

(** X11 at a table whose row 1 parses and whose row 2 does not. *)
Lemma start_registers_exactly_the_parsable_witness :
  let s := init [row 1 "* * * * *"; row 2 "not a cron"] 3
                (Some StorageManager.get_all_reminders) in
  exists s',
    start any_fields s = (Ok tt, s') /\
    is_Some (jobs s' !! "1") /\ jobs s' !! "2" = None.
Proof.
  cbn zeta.
  destruct (start_registers_exactly_the_parsable any_fields
              (init [row 1 "* * * * *"; row 2 "not a cron"] 3
                    (Some StorageManager.get_all_reminders))
              StorageManager.get_all_reminders
              [row 1 "* * * * *"; row 2 "not a cron"]
              eq_refl eq_refl) as (s' & Hrun & Hdom).
  exists s'. split; [exact Hrun|]. split.
  - apply (Hdom "1"). right. exists (row 1 "* * * * *").
    split; [apply list_elem_of_here|]. split; vm_compute; reflexivity.
  - destruct (jobs s' !! "2") as [j|] eqn:Hj; [|reflexivity].
    exfalso.
    destruct (proj1 (Hdom "2") (ex_intro _ j Hj)) as [Hk|(r & Hr & Hok & Hk)].
    + cbn in Hk. rewrite lookup_empty in Hk. by destruct Hk.
    + apply elem_of_cons in Hr as [->|Hr]; [vm_compute in Hk; discriminate|].
      apply elem_of_cons in Hr as [->|Hr]; [vm_compute in Hok; discriminate|].
      by apply elem_of_nil in Hr.
Defined.


(** *** Deleting a reminder *)

(** Filtering out an id that no row has changes nothing. *)
Lemma filter_absent_id (i : Z) (l : list reminder) :
  existsb (fun r => Z.eqb (id r) i) l = false ->
  List.filter (fun r => negb (Z.eqb (id r) i)) l = l.
Proof.
  induction l as [|r l IH]; cbn; [done|].
  intros H. apply orb_false_iff in H as [Hr Hl].
  rewrite Hr. cbn. by rewrite IH.
Qed.

Lemma filter_below_id (i : Z) (l : list reminder) :
  (forall r, r ∈ l -> id r < i) ->
  List.filter (fun r => negb (Z.eqb (id r) i)) l = l.
Proof.
  intros H. apply filter_absent_id.
  destruct (existsb _ l) eqn:He; [|done].
  apply existsb_exists in He as (r & Hr & Heq).
  apply list_elem_of_In, H in Hr. lia.
Qed.

(** The table after [StorageManager.delete_reminder], found or not. *)
Lemma storage_delete_reminder_returns reminder_id s :
  exists b s',
    StorageManager.delete_reminder reminder_id s = (Ok b, s') /\
    b = existsb (fun r => Z.eqb (id r) reminder_id) (reminders s) /\
    reminders s'
    = List.filter (fun r => negb (Z.eqb (id r) reminder_id)) (reminders s) /\
    jobs s' = jobs s /\ next_id s' = next_id s /\ log s' = log s.
Proof.
  unfold StorageManager.delete_reminder.
  destruct (existsb _ (reminders s)) eqn:He.
  - eexists _, _. split; [reflexivity|]. by cbn.
  - exists false, s. by rewrite filter_absent_id.
Qed.

(** The job store after [ScheduleManager.delete_reminder], found or not. *)
Lemma delete_reminder_returns reminder_id s :
  exists s',
    delete_reminder reminder_id s
    = (Ok (bool_decide (is_Some (jobs s !! pretty reminder_id))), s') /\
    jobs s' = delete (pretty reminder_id) (jobs s) /\
    reminders s' = reminders s /\ next_id s' = next_id s /\ log s' = log s.
Proof.
  unfold delete_reminder. cbn zeta.
  destruct (jobs s !! pretty reminder_id) as [j|] eqn:Hj.
  - eexists. split; [reflexivity|]. by cbn.
  - exists s. by rewrite delete_id.
Qed.

Lemma handlers_delete_reminder_returns user_id reminder_id s :
  exists s',
    handlers_delete_reminder user_id reminder_id s = (Ok tt, s') /\
    jobs s' = delete (pretty reminder_id) (jobs s) /\
    reminders s'
    = List.filter (fun r => negb (Z.eqb (id r) reminder_id)) (reminders s) /\
    next_id s' = next_id s.
Proof.
  unfold handlers_delete_reminder.
  unfold bind at 1. unfold logger at 1.
  unfold bind at 1.
  match goal with
  | |- context [delete_reminder reminder_id ?s0] =>
      destruct (delete_reminder_returns reminder_id s0)
        as (s1 & -> & Hj1 & Hr1 & Hn1 & _)
  end.
  unfold bind at 1.
  destruct (storage_delete_reminder_returns reminder_id s1)
    as (b & s2 & -> & _ & Hr2 & Hj2 & Hn2 & _).
  cbn in Hj1, Hr1, Hn1. unfold logger. eexists. split; [reflexivity|].
  cbn. rewrite Hj2, Hr2, Hn2, Hj1, Hr1, Hn1. done.
Qed.

(** X12.  [delete_reminder] of the chat handlers removes the row and the
    job of the given reminder id whoever asks: the asking user appears in
    the log lines only, the owner of the row is not looked at.  Every other
    row and every other reminder's job stays; an id that is unknown leaves
    table and job store as they are. *)
Theorem handlers_delete_reminder_any_user (user_id reminder_id : Z) (s : state) :
  exists s',
    handlers_delete_reminder user_id reminder_id s = (Ok tt, s') /\
    (forall r, r ∈ reminders s' <-> r ∈ reminders s /\ id r <> reminder_id) /\
    jobs s' !! pretty reminder_id = None /\
    (forall i, i <> reminder_id ->
               jobs s' !! pretty i = jobs s !! pretty i) /\
    ((forall r, r ∈ reminders s -> id r <> reminder_id) ->
     reminders s' = reminders s) /\
    (jobs s !! pretty reminder_id = None -> jobs s' = jobs s).
Proof.
  destruct (handlers_delete_reminder_returns user_id reminder_id s)
    as (s' & Hrun & Hj & Hr & _).
  exists s'. split; [done|]. split; [|split; [|split; [|split]]].
  - intros r. rewrite Hr, !list_elem_of_In, filter_In.
    rewrite negb_true_iff, Z.eqb_neq. done.
  - rewrite Hj. apply lookup_delete_eq.
  - intros i Hi. rewrite Hj. apply lookup_delete_ne.
    intros Heq. by apply (inj pretty) in Heq.
  - intros Hnone. rewrite Hr. apply filter_absent_id.
    destruct (existsb _ (reminders s)) eqn:He; [|done].
    apply existsb_exists in He as (r & Hin & Heq).
    apply list_elem_of_In, Hnone in Hin. apply Z.eqb_eq in Heq. done.
  - intros Hnone. rewrite Hj. by apply delete_id.
Qed.

(** *** Adding a reminder, then deleting it *)

(** X13.  [ScheduleManager.add_reminder] is all or nothing and keyed by the
    reminder id: with an expression that does not parse it raises
    [ValueError] and the manager is as before; otherwise the job is
    registered under the id, replacing a job of that id, and the jobs of
    all other ids are as before. *)
Theorem add_reminder_all_or_nothing fields_ok (reminder_id : Z)
    (user_id cron message : string) (s : state) :
  match from_crontab fields_ok cron with
  | Raise e =>
      add_reminder fields_ok reminder_id user_id cron message s
      = (Raise (ValueError ("Invalid cron expression: " ++ exn_str e)), s)
  | Ok t =>
      exists s',
        add_reminder fields_ok reminder_id user_id cron message s = (Ok tt, s') /\
        jobs s' !! pretty reminder_id
        = Some {| job_trigger := t; job_args := (user_id, message, cron) |} /\
        (forall i, i <> reminder_id ->
                   jobs s' !! pretty i = jobs s !! pretty i) /\
        (is_Some (jobs s !! pretty reminder_id) ->
         size (jobs s') = size (jobs s)) /\
        reminders s' = reminders s
  end.
Proof.
  destruct (from_crontab fields_ok cron) as [t|e] eqn:Ht.
  - destruct (ScheduleFacts.add_reminder_valid fields_ok reminder_id user_id
                cron message t s Ht) as (s' & Hrun & Hj & Hr).
    exists s'. split; [done|]. split; [|split; [|split]].
    + rewrite Hj. apply lookup_insert_eq.
    + intros i Hi. rewrite Hj. apply lookup_insert_ne.
      intros Heq. by apply (inj pretty) in Heq.
    + intros [j Hsome]. rewrite Hj.
      rewrite <- (insert_delete_eq (jobs s)) at 1.
      rewrite <- (insert_delete_id (jobs s) _ _ Hsome) at 2.
      rewrite !map_size_insert_None by apply lookup_delete_eq. done.
    + done.
  - by apply ScheduleFacts.add_reminder_invalid.
Qed.

(** The table after the adapter's [add_reminder], valid expression or not. *)
Lemma adapter_add_reminder_table fields_ok user_id cron message s :
  exists r s',
    adapter_add_reminder fields_ok user_id cron message s = (r, s') /\
    reminders s'
    = (reminders s ++ [{| id := next_id s; user_id := user_id;
                          cron := cron; message := message |}])%list /\
    next_id s' = next_id s + 1.
Proof.
  unfold adapter_add_reminder, add_reminder, schedule_job. srun.
  destruct (from_crontab fields_ok cron) as [t|e] eqn:Ht; cbn.
  - eexists _, _. split; [reflexivity|]. by cbn.
  - rewrite (ScheduleFacts.from_crontab_raises _ _ _ Ht). cbn.
    eexists _, _. split; [reflexivity|]. by cbn.
Qed.

(** The table [two_rows] has its ids 1 and 2 below the next id 3. *)
Lemma two_rows_fresh : ids_fresh two_rows.
Proof.
  split.
  - intros r Hr. cbn in Hr.
    apply elem_of_cons in Hr as [->|Hr]; [reflexivity|].
    apply elem_of_cons in Hr as [->|Hr]; [reflexivity|].
    by apply elem_of_nil in Hr.
  - apply (bool_decide_unpack _). vm_compute. exact I.
Defined.

(** X14.  Adding a reminder through the adapter and deleting it by the id
    the adapter returned leaves the [reminders] table and the job store as
    they were before (the table's ids being below the next id, and no job
    registered under the next id). *)
Theorem add_then_delete_round_trip fields_ok (user_id cron message : string)
    (asking : Z) (t : trigger) (s : state) :
  from_crontab fields_ok cron = Ok t ->
  ids_fresh s ->
  jobs s !! pretty (next_id s) = None ->
  exists i s1 s2,
    adapter_add_reminder fields_ok user_id cron message s = (Ok i, s1) /\
    handlers_delete_reminder asking i s1 = (Ok tt, s2) /\
    reminders s2 = reminders s /\ jobs s2 = jobs s.
Proof.
  intros Ht [Hbelow _] Hnone.
  destruct (ScheduleFacts.adapter_add_reminder_valid fields_ok user_id cron
              message t s Ht) as (s1 & Hadd & Hr1 & Hj1).
  destruct (handlers_delete_reminder_returns asking (next_id s) s1)
    as (s2 & Hdel & Hj2 & Hr2 & _).
  exists (next_id s), s1, s2. split; [done|]. split; [done|]. split.
  - rewrite Hr2, Hr1, List.filter_app. cbn. rewrite Z.eqb_refl. cbn.
    rewrite app_nil_r. by apply filter_below_id.
  - rewrite Hj2, Hj1. by apply delete_insert_id.
Qed.

(** X14 at the table [two_rows]. *)
Lemma add_then_delete_round_trip_witness :
  exists i s1 s2,
    adapter_add_reminder any_fields "owner" "0 12 * * *" "stand up" two_rows
    = (Ok i, s1) /\
    handlers_delete_reminder 7 i s1 = (Ok tt, s2) /\
    reminders s2 = reminders two_rows /\ jobs s2 = jobs two_rows.
Proof.
  apply (add_then_delete_round_trip any_fields "owner" "0 12 * * *" "stand up"
           7 {| minute := "0"; hour := "12"; day := "*"; month := "*";
                day_of_week := "*" |} two_rows).
  - reflexivity.
  - exact two_rows_fresh.
  - vm_compute. reflexivity.
Defined.


(** *** The chat command that adds a reminder *)

(** The chat handler's [add_reminder] stores the row under the next id,
    whatever the expression. *)
Lemma handlers_add_reminder_table fields_ok user_id cron message s :
  exists r s',
    handlers_add_reminder fields_ok user_id cron message s = (r, s') /\
    reminders s'
    = (reminders s ++ [{| id := next_id s; user_id := pretty user_id;
                          cron := cron; message := message |}])%list /\
    next_id s' = next_id s + 1 /\
    match from_crontab fields_ok cron with
    | Ok t =>
        r = Ok (next_id s) /\
        jobs s' = <[pretty (next_id s) :=
                      {| job_trigger := t;
                         job_args := (pretty user_id, message, cron) |}]>
                    (jobs s) /\
        Forall (fun line => line.2 = "info") (drop (length (log s)) (log s'))
    | Raise e =>
        r = Raise (ValueError ("Invalid cron expression: " ++ exn_str e)) /\
        jobs s' = jobs s
    end.
Proof.
  unfold handlers_add_reminder, add_reminder, schedule_job. srun.
  destruct (from_crontab fields_ok cron) as [t|e] eqn:Ht; cbn.
  - eexists _, _. split; [reflexivity|]. cbn.
    do 4 (split; [done|]).
    rewrite <- !app_assoc, drop_app_length. by repeat constructor.
  - rewrite (ScheduleFacts.from_crontab_raises _ _ _ Ht). cbn.
    eexists _, _. split; [reflexivity|]. by cbn.
Qed.

(** What the parser accepts, [from_crontab] accepts. *)
Lemma parse_reminder_add_args_ok fields_ok args cron message :
  parse_reminder_add_args fields_ok args = Ok (cron, message) ->
  exists t, from_crontab fields_ok cron = Ok t.
Proof.
  unfold parse_reminder_add_args.
  destruct (length args <? 6)%nat; [done|]. cbn zeta.
  destruct (from_crontab fields_ok (join (take 5 args))) as [t|e] eqn:Ht; [|done].
  destruct (_ || _); [done|]. intros [= <- <-]. by exists t.
Qed.

(** X15.  The chat command [/reminder_add] stores only what its parser
    accepted, and the only exception that can leave it is the one of the
    reply it sends from its [except] branch.  When the arguments are
    rejected, the table, the next id and the job store are as before, the
    rejection is logged at level "error" and the outcome is that of the
    error reply.  When they are accepted, the row is appended under the
    next id with the chat user's id as its owner and the job is registered
    under that id with the same owner, message and expression; if the
    confirmation is delivered the command returns and has logged at level
    "info" only; if the confirmation raises, row and job stay as they are,
    the exception is the last line logged, at level "error", and the
    outcome is that of the error reply about it. *)
Theorem handle_reminder_add_stores_only_parsed fields_ok
    (reply_text : string -> result unit) (telegram_id : Z)
    (args : list string) (s : state) :
  exists r s',
    handle_reminder_add fields_ok reply_text telegram_id args s = (r, s') /\
    match parse_reminder_add_args fields_ok args with
    | Raise e =>
        reminders s' = reminders s /\ next_id s' = next_id s /\
        jobs s' = jobs s /\
        log s' = (log s ++ [(("Error adding reminder for user "
                              ++ pretty telegram_id ++ ": " ++ exn_str e)%string,
                             "error")])%list /\
        r = reply_text (reminder_error_text e)
    | Ok (cron, message) =>
        reminders s'
        = (reminders s ++ [{| id := next_id s; user_id := pretty telegram_id;
                              cron := cron; message := message |}])%list /\
        next_id s' = next_id s + 1 /\
        (exists j, jobs s' !! pretty (next_id s) = Some j /\
                   job_args j = (pretty telegram_id, message, cron)) /\
        match reply_text (reminder_created_text (next_id s) message cron) with
        | Ok _ =>
            r = Ok tt /\
            Forall (fun line => line.2 = "info")
                   (drop (length (log s)) (log s'))
        | Raise x =>
            r = reply_text (reminder_error_text x) /\
            last (log s')
            = Some (("Error adding reminder for user "
                     ++ pretty telegram_id ++ ": " ++ exn_str x)%string,
                    "error")
        end
    end.
Proof.
  unfold handle_reminder_add. unfold try_except, lift_result. unfold bind at 1.
  destruct (parse_reminder_add_args fields_ok args) as [[cron message]|e] eqn:Hp.
  - destruct (parse_reminder_add_args_ok _ _ _ _ Hp) as [t Ht].
    unfold bind at 1. cbn [fst snd].
    destruct (handlers_add_reminder_table fields_ok telegram_id cron message s)
      as (r1 & s1 & -> & Hr & Hn & Hcase).
    rewrite Ht in Hcase. destruct Hcase as (-> & Hj & Hinfo).
    assert (Hjob : exists j, jobs s1 !! pretty (next_id s) = Some j /\
                             job_args j = (pretty telegram_id, message, cron)).
    { eexists. split; [by rewrite Hj, lookup_insert_eq|done]. }
    destruct (reply_text (reminder_created_text (next_id s) message cron))
      as [[]|x] eqn:Hreply.
    + exists (Ok tt), s1. by repeat split.
    + unfold bind, logger. cbn.
      eexists _, _. split; [reflexivity|]. cbn.
      do 3 (split; [done|]). split; [done|]. by rewrite last_snoc.
  - unfold bind, logger. cbn. eexists _, _. split; [reflexivity|]. by cbn.
Qed.

(** *** Firing without a callback *)

(** X17.  While no callback is set, a tick delivers nothing: for every due
    job that is registered one warning naming its owner and message is
    logged, nothing is awaited, and the jobs stay registered. *)
Theorem tick_without_callback_only_warns (due : list string) (s : state) :
  callback s = None ->
  exists s',
    tick due s = (Ok tt, s') /\
    awaited s' = awaited s /\
    jobs s' = jobs s /\
    log s'
    = (log s ++
       flat_map (fun job_id =>
                   match jobs s !! job_id with
                   | Some j =>
                       let '(user_id, message, cron) := job_args j in
                       [(("Reminder triggered but no callback set. User: "
                          ++ user_id ++ ", Message: " ++ message)%string,
                         "warning")]
                   | None => []
                   end) due)%list.
Proof.
  revert s. induction due as [|job_id due IH]; intros s Hcb.
  - exists s. cbn. by rewrite app_nil_r.
  - cbn [tick flat_map]. unfold bind. unfold fire at 1.
    destruct (jobs s !! job_id) as [j|] eqn:Hj.
    + destruct (job_args j) as [[u m] c]. unfold _job_wrapper at 1.
      rewrite Hcb. unfold logger at 1.
      match goal with
      | |- context [tick due ?s0] =>
          destruct (IH s0 Hcb) as (s' & -> & Ha & Hjobs & Hlog)
      end.
      cbn in Ha, Hjobs, Hlog. exists s'. repeat split; try done.
      by rewrite Hlog, <- app_assoc.
    + unfold ret at 1. destruct (IH s Hcb) as (s' & -> & Ha & Hjobs & Hlog).
      exists s'. by repeat split.
Qed.

(** X17 at two registered jobs and one id that is not registered. *)
Lemma tick_without_callback_only_warns_witness :
  exists s',
    tick ["1"; "9"; "2"] two_jobs_no_callback = (Ok tt, s') /\
    awaited s' = [] /\
    log s'
    = [("Reminder triggered but no callback set. User: a, Message: stand up",
        "warning");
       ("Reminder triggered but no callback set. User: b, Message: drink water",
        "warning")].
Proof.
  destruct (tick_without_callback_only_warns ["1"; "9"; "2"]
              two_jobs_no_callback eq_refl) as (s' & Hrun & Ha & _ & Hlog).
  exists s'. split; [exact Hrun|]. split; [exact Ha|].
  rewrite Hlog. vm_compute. reflexivity.
Defined.

(** *** Listing the reminders of an owner *)

Lemma filter_filter_comm {A} (f g : A -> bool) (l : list A) :
  List.filter f (List.filter g l) = List.filter g (List.filter f l).
Proof.
  induction l as [|x l IH]; [done|]. cbn.
  destruct (f x) eqn:Hf, (g x) eqn:Hg; cbn; rewrite ?Hf, ?Hg, ?IH; done.
Qed.

(** X18.  [get_reminders] follows the table: after a row is added for
    [user_id], the list of an owner is the list from before, with the new
    row at its end if the owner is [user_id]; after reminder [reminder_id]
    is deleted, the list of an owner is the list from before without the
    rows of that id. *)
Theorem get_reminders_follows_table (owner user_id cron message : string)
    (reminder_id : Z) (s : state) :
  (exists l,
     fst (StorageManager.get_reminders owner s) = Ok l /\
     fst (StorageManager.get_reminders owner
            (snd (StorageManager.add_reminder user_id cron message s)))
     = Ok (l ++ if String.eqb user_id owner
                then [{| id := next_id s; user_id := user_id;
                         cron := cron; message := message |}]
                else [])%list /\
     fst (StorageManager.get_reminders owner
            (snd (StorageManager.delete_reminder reminder_id s)))
     = Ok (List.filter (fun r => negb (Z.eqb (id r) reminder_id)) l)) /\
  snd (StorageManager.get_reminders owner s) = s.
Proof.
  split; [|reflexivity]. eexists. split; [reflexivity|]. split.
  - cbn. by rewrite List.filter_app.
  - destruct (storage_delete_reminder_returns reminder_id s)
      as (b & s' & -> & _ & Hr & _).
    cbn. rewrite Hr. by rewrite filter_filter_comm.
Qed.

End ScheduleMore.

(** ** The chat command's parser on words *)

Module TextFacts.
Import Schedule.

#[local] Arguments String.append !s1 s2 : simpl nomatch.

(** *** Splitting and joining words *)

Lemma append_assoc (s1 s2 s3 : string) : (s1 ++ s2) ++ s3 = s1 ++ (s2 ++ s3).
Proof.
  induction s1 as [|c s1 IH]; [reflexivity|]. exact (f_equal (String c) IH).
Qed.

Lemma append_nil_r (s : string) : s ++ EmptyString = s.
Proof.
  induction s as [|c s IH]; [reflexivity|]. exact (f_equal (String c) IH).
Qed.

Lemma append_eqb_nil (cur w : string) :
  String.eqb w EmptyString = false ->
  String.eqb (cur ++ w) EmptyString = false.
Proof. destruct cur, w; cbn; done. Qed.

(** A word has no white-space character at its start, so its first byte
    is no ASCII white space. *)
Lemma no_space_head (c : ascii) (w : string) :
  no_space (String c w) = true ->
  space_prefix (String c w) = false /\ is_space c = false /\
  no_space w = true.
Proof.
  cbn [no_space]. intros H. apply andb_true_iff in H as [Hp Hw].
  apply negb_true_iff in Hp. split; [done|]. split; [|done].
  cbn [space_prefix] in Hp. by apply orb_false_iff in Hp as [Hc _].
Qed.

(** A word is taken up by [split] as a whole. *)
Lemma split_go_word (w : string) : forall cur rest,
  no_space w = true ->
  split_go cur (w ++ rest) = split_go (cur ++ w) rest.
Proof.
  induction w as [|c w IH]; intros cur rest Hw.
  - cbn. by rewrite append_nil_r.
  - apply no_space_head in Hw as (_ & Hc & Hw).
    cbn [append split_go]. rewrite Hc.
    rewrite IH by done. by rewrite append_assoc.
Qed.

(** [' '.join(words).split()] gives the words back. *)
Lemma split_join (l : list string) :
  Forall (fun w => is_word w = true) l -> split (join l) = l.
Proof.
  unfold split. induction l as [|x l IH]; intros Hl; [done|].
  apply Forall_cons in Hl as [Hx Hl].
  unfold is_word in Hx. apply andb_true_iff in Hx as [Hne Hx].
  apply negb_true_iff in Hne.
  destruct l as [|y l].
  - cbn [join]. rewrite <- (append_nil_r x) at 1.
    rewrite split_go_word by done. cbn. by rewrite Hne.
  - change (join (x :: y :: l)) with (x ++ String " " (join (y :: l))).
    rewrite split_go_word by done. cbn [append split_go].
    change (is_space " ") with true. cbn match. rewrite Hne.
    by rewrite IH.
Qed.

(** The blank that [join] puts after a word completes no white-space
    character with the bytes before it. *)
Lemma is_space2_blank (c1 : ascii) : is_space2 c1 " " = false.
Proof.
  unfold is_space2. change (nat_of_ascii " ") with 32%nat.
  by destruct (nat_of_ascii c1 =? 194)%nat.
Qed.

Lemma is_space3_blank_second (c1 c3 : ascii) : is_space3 c1 " " c3 = false.
Proof.
  unfold is_space3. change (nat_of_ascii " ") with 32%nat.
  destruct (nat_of_ascii c1 =? 225)%nat, (nat_of_ascii c1 =? 226)%nat,
    (nat_of_ascii c1 =? 227)%nat; reflexivity.
Qed.

Lemma is_space3_blank_third (c1 c2 : ascii) : is_space3 c1 c2 " " = false.
Proof.
  unfold is_space3. change (nat_of_ascii " ") with 32%nat.
  destruct (nat_of_ascii c1 =? 225)%nat, (nat_of_ascii c1 =? 226)%nat,
    (nat_of_ascii c1 =? 227)%nat, (nat_of_ascii c2 =? 154)%nat,
    (nat_of_ascii c2 =? 128)%nat, (nat_of_ascii c2 =? 129)%nat; reflexivity.
Qed.

(** A text that begins with a word is not blank, whether the word ends the
    text or a blank follows it. *)
Lemma blank_after_word (x t : string) :
  x <> EmptyString ->
  space_prefix x = false ->
  t = EmptyString \/ (exists t', t = String " " t') ->
  blank (x ++ t) = false.
Proof.
  intros Hne Hp Ht.
  destruct x as [|c1 x]; [done|]. cbn [space_prefix] in Hp.
  apply orb_false_iff in Hp as [Hc1 Hp].
  cbn [append blank]. rewrite Hc1.
  destruct x as [|c2 x].
  - destruct Ht as [->|[t' ->]]; cbn [append]; [done|].
    rewrite is_space2_blank. destruct t' as [|c3 t']; [done|].
    by rewrite is_space3_blank_second.
  - apply orb_false_iff in Hp as [Hc2 Hp]. cbn [append]. rewrite Hc2.
    destruct x as [|c3 x].
    + destruct Ht as [->|[t' ->]]; cbn [append]; [done|].
      by rewrite is_space3_blank_third.
    + cbn [append]. by rewrite Hp.
Qed.

(** Words joined are not blank. *)
Lemma join_words_not_blank (x : string) (l : list string) :
  is_word x = true ->
  String.eqb (join (x :: l)) EmptyString = false /\
  strip_truthy (join (x :: l)) = true.
Proof.
  intros Hx. unfold is_word in Hx. apply andb_true_iff in Hx as [Hne Hx].
  apply negb_true_iff in Hne.
  assert (Hjoin : exists t, join (x :: l) = x ++ t /\
                            (t = EmptyString \/ exists t', t = String " " t')).
  { destruct l as [|y l].
    - exists EmptyString. cbn [join]. by rewrite append_nil_r; split; [|left].
    - exists (String " " (join (y :: l))). split; [reflexivity|].
      right. by eexists. }
  destruct Hjoin as (t & -> & Ht).
  destruct x as [|c x]; [done|].
  apply no_space_head in Hx as (Hp & _ & _).
  split; [reflexivity|]. unfold strip_truthy.
  rewrite (blank_after_word (String c x) t); [done|done|done|done].
Qed.

End TextFacts.

Module ParseFacts.
Import Schedule ScheduleScenarios.

#[local] Arguments String.append : simpl never.
#[local] Arguments pretty : simpl never.

(** X19.  On arguments that are words (as a chat command's arguments are:
    not empty and free of every white-space character of [str.isspace()],
    the ones beyond ASCII included) [parse_reminder_add_args] rejects fewer
    than six of them with the usage line; otherwise the first five are the
    five fields [from_crontab] sees, and the outcome is its verdict on
    them: the expression and the rest as the message when it accepts, its
    complaint when it does not.  The complaint about a missing message
    cannot occur: the message begins with a word, so [message.strip()] is
    not empty.  In such words the only white space of the joined text is
    the blanks that [join] puts in, which [split] knows. *)
Theorem parse_reminder_add_args_on_words fields_ok (args : list string) :
  Forall (fun w => is_word w = true) args ->
  split (join (take 5 args)) = take 5 args /\
  parse_reminder_add_args fields_ok args
  = (if (length args <? 6)%nat then
       Raise (ValidationError "Usage: /reminder_add [cron_expression] [message]")
     else
       match from_crontab fields_ok (join (take 5 args)) with
       | Ok _ => Ok (join (take 5 args), join (drop 5 args))
       | Raise e =>
           Raise (ValidationError ("Invalid cron expression: " ++ exn_str e))
       end) /\
  ((length args <? 6)%nat = false ->
   is_ok (from_crontab fields_ok (join (take 5 args)))
   = fields_ok (take 5 args)).
Proof.
  intros Hw.
  assert (Hsplit : split (join (take 5 args)) = take 5 args).
  { apply TextFacts.split_join. by apply Forall_take. }
  split; [done|]. split.
  - unfold parse_reminder_add_args.
    destruct (length args <? 6)%nat eqn:Hlen; [done|]. cbn zeta.
    destruct (from_crontab fields_ok (join (take 5 args))); [|done].
    apply Nat.ltb_ge in Hlen.
    destruct (drop 5 args) as [|x rest] eqn:Hdrop.
    { apply (f_equal length) in Hdrop. rewrite length_drop in Hdrop.
      cbn in Hdrop. lia. }
    assert (Hx : is_word x = true).
    { apply (Forall_drop _ 5) in Hw. rewrite Hdrop in Hw.
      by apply Forall_cons in Hw as [Hx _]. }
    destruct (TextFacts.join_words_not_blank x rest Hx) as [-> ->]. done.
  - intros Hlen. apply Nat.ltb_ge in Hlen.
    unfold from_crontab. rewrite Hsplit.
    destruct args as [|a1 [|a2 [|a3 [|a4 [|a5 rest]]]]]; cbn in Hlen; try lia.
    cbn [take]. rewrite take_0. by destruct (fields_ok _).
Qed.

(** X19 at a command with a five-field expression and a two-word message. *)
Lemma parse_reminder_add_args_on_words_witness :
  parse_reminder_add_args any_fields
    ["0"; "12"; "*"; "*"; "1-5"; "drink"; "water"]
  = Ok ("0 12 * * 1-5", "drink water").
Proof.
  destruct (parse_reminder_add_args_on_words any_fields
              ["0"; "12"; "*"; "*"; "1-5"; "drink"; "water"])
    as (_ & Hparse & _).
  - repeat constructor.
  - rewrite Hparse. vm_compute. reflexivity.
Defined.

End ParseFacts.

(** ** [pick], message rotation and the conversation history *)

Module UtilsFacts.
Import Utils History.

(** *** [pick] *)

(** The fold of [pick], from any accumulator. *)
Lemma pick_fold_lookup {V} (source : gmap string V) (keys : list string) :
  forall (acc : gmap string V) (k : string),
    foldl (fun acc key =>
             match source !! key with
             | Some v => <[key := v]> acc
             | None => acc
             end) acc keys !! k
    = if bool_decide (k ∈ keys) then
        match source !! k with Some v => Some v | None => acc !! k end
      else acc !! k.
Proof.
  induction keys as [|key keys IH]; intros acc k; cbn [foldl].
  - rewrite bool_decide_eq_false_2; [done|]. apply not_elem_of_nil.
  - rewrite IH. destruct (decide (k = key)) as [->|Hne].
    + rewrite (bool_decide_eq_true_2 (key ∈ key :: keys))
        by apply list_elem_of_here.
      destruct (source !! key) as [v|] eqn:Hs.
      * rewrite lookup_insert_eq. destruct (bool_decide (key ∈ keys)); done.
      * destruct (bool_decide (key ∈ keys)); done.
    + assert (Hiff : bool_decide (k ∈ key :: keys) = bool_decide (k ∈ keys)).
      { apply bool_decide_ext. rewrite elem_of_cons.
        split; [by intros [?|?]|by right]. }
      rewrite Hiff.
      destruct (source !! key) as [v|]; [|done].
      by rewrite lookup_insert_ne.
Qed.

(** X20.  [pick] keeps of the source exactly the entries whose key is
    listed: a listed key maps to what the source maps it to (nothing when
    the source lacks it, without an error), any other key to nothing.  So
    the result is a part of the source, and picking the same keys from the
    result changes nothing. *)
Theorem pick_keeps_the_listed {V} (source : gmap string V)
    (keys : list string) :
  (forall k, pick source keys !! k
             = if bool_decide (k ∈ keys) then source !! k else None) /\
  pick source keys ⊆ source /\
  pick (pick source keys) keys = pick source keys.
Proof.
  assert (Hlook : forall (src : gmap string V) k,
             pick src keys !! k
             = if bool_decide (k ∈ keys) then src !! k else None).
  { intros src k. unfold pick. rewrite pick_fold_lookup, lookup_empty.
    destruct (bool_decide _); [|done]. by destruct (src !! k). }
  split; [apply Hlook|]. split.
  - apply map_subseteq_spec. intros k v. rewrite Hlook.
    by destruct (bool_decide _).
  - apply map_eq. intros k. rewrite !Hlook.
    by destruct (bool_decide _).
Qed.

(** *** [rotate_messages] and the conversation history *)

(** What [rotate_messages] returns for a positive bound. *)
Lemma rotate_messages_positive {message} (messages : list message)
    (max_messages : Z) :
  0 < max_messages ->
  rotate_messages messages max_messages
  = Ok (drop (length messages - Z.to_nat max_messages) messages).
Proof.
  intros Hpos. unfold rotate_messages, slice_from.
  destruct (Z.leb_spec max_messages 0) as [?|_]; [lia|].
  destruct (Z.leb_spec (Z.of_nat (length messages)) max_messages) as [Hle|Hgt].
  - replace (length messages - Z.to_nat max_messages)%nat with 0%nat by lia.
    done.
  - cbn zeta. destruct (Z.ltb_spec (- max_messages) 0) as [_|?]; [|lia].
    f_equal. f_equal. lia.
Qed.

(** X21.  With a positive bound [rotate_messages] returns the newest
    messages, at most [max_messages] of them: the list without its first
    [len - max_messages] elements, of length [min len max_messages]; a list
    within the bound comes back as it is, and rotating again changes
    nothing.  A bound of zero or less raises [ValueError]. *)
Theorem rotate_messages_keeps_newest {message} (messages : list message)
    (max_messages : Z) :
  if Z.leb max_messages 0 then
    rotate_messages messages max_messages
    = Raise (ValueError "max_messages must be positive")
  else
    exists kept,
      rotate_messages messages max_messages = Ok kept /\
      kept = drop (length messages - Z.to_nat max_messages) messages /\
      length kept = Nat.min (length messages) (Z.to_nat max_messages) /\
      (Z.of_nat (length messages) <= max_messages -> kept = messages) /\
      rotate_messages kept max_messages = Ok kept.
Proof.
  destruct (Z.leb_spec max_messages 0) as [Hle|Hpos].
  - unfold rotate_messages. by destruct (Z.leb_spec max_messages 0); [|lia].
  - eexists. split; [by apply rotate_messages_positive|].
    split; [done|]. split; [rewrite length_drop; lia|]. split.
    + intros Hle.
      replace (length messages - Z.to_nat max_messages)%nat with 0%nat by lia.
      done.
    + rewrite rotate_messages_positive by done. f_equal.
      rewrite length_drop.
      replace (length messages - (length messages - Z.to_nat max_messages)
               - Z.to_nat max_messages)%nat with 0%nat by lia.
      done.
Qed.

(** X22.  Saving a conversation and reading it back: with a positive bound
    [save_conversation_history] returns, what is then read for the user is
    the newest [max_messages] of the saved messages (replacing whatever was
    stored), and every other user reads what they read before.  With a
    bound of zero or less it raises [ValueError] and the table is
    untouched.  A user with no stored conversation reads the empty list. *)
Theorem conversation_history_round_trip {message} (user_id : string)
    (messages : list message) (max_messages : Z)
    (t : gmap string (list message)) :
  (if Z.leb max_messages 0 then
     save_conversation_history user_id messages max_messages t
     = (Raise (ValueError "max_messages must be positive"), t)
   else
     exists t',
       save_conversation_history user_id messages max_messages t
       = (Ok tt, t') /\
       get_conversation_history user_id t'
       = (Ok (drop (length messages - Z.to_nat max_messages) messages), t') /\
       forall other, other <> user_id ->
         fst (get_conversation_history other t')
         = fst (get_conversation_history other t)) /\
  (t !! user_id = None -> get_conversation_history user_id t = (Ok [], t)).
Proof.
  split.
  - unfold save_conversation_history.
    destruct (Z.leb_spec max_messages 0) as [Hle|Hpos]; [done|].
    unfold bind, lift_result. rewrite rotate_messages_positive by done.
    eexists. split; [reflexivity|]. split.
    + unfold get_conversation_history. by rewrite lookup_insert_eq.
    + intros other Hne. unfold get_conversation_history. cbn.
      by rewrite lookup_insert_ne.
  - intros Hnone. unfold get_conversation_history. by rewrite Hnone.
Qed.

End UtilsFacts.

(** ** The retry loop of [RetryTransport] *)

Module RetryFacts.
Import Retry RetryScenarios.

#[local] Arguments String.append : simpl never.
#[local] Arguments pretty : simpl never.
#[local] Arguments Z.pow : simpl never.

Lemma delays_S a d n :
  delays a d (S n) = (2 ^ Z.of_nat a, d) :: delays (S a) (S d) n.
Proof.
  unfold delays. cbn [seq fmap list_fmap]. rewrite !Nat.add_0_r. f_equal.
  rewrite <- seq_shift, <- list_fmap_compose.
  apply list_fmap_ext. intros _ i _. cbn. f_equal; [f_equal|]; lia.
Qed.

(** One turn of the loop, by the outcome of the transport underneath. *)
Lemma turn_outcome E (max_retries : Z) (a : nat) resp w :
  exists w',
    (if retryable (below E (attempts w))
        && Z.ltb (Z.of_nat a) (max_retries - 1)
     then
       turn E max_retries (Z.of_nat a) resp w
       = (Ok (inr match below E (attempts w) with
                  | Ok r => Some r
                  | Raise _ => resp
                  end), w') /\
       slept w' = (slept w ++ [(2 ^ Z.of_nat a, draws w)])%list /\
       draws w' = S (draws w)
     else
       turn E max_retries (Z.of_nat a) resp w
       = (match below E (attempts w) with
          | Ok r => Ok (inl r)
          | Raise e => Raise e
          end, w') /\
       slept w' = slept w /\ draws w' = draws w) /\
    attempts w' = S (attempts w).
Proof.
  unfold turn, try_except_connect, bind, handle_below, back_off, uniform,
    logger, sleep, ret, raise, retryable.
  destruct (below E (attempts w)) as [r|e] eqn:Hb; cbn.
  - destruct (Z.ltb (Tokens.status_code r) 500
              && negb (Z.eqb (Tokens.status_code r) 429)); cbn.
    + eexists. split; [split; [reflexivity|done]|done].
    + destruct (Z.ltb (Z.of_nat a) (max_retries - 1)); cbn;
        eexists; (split; [split; [reflexivity|done]|done]).
  - destruct (is_connect_or_timeout e); cbn.
    + destruct (Z.ltb (Z.of_nat a) (max_retries - 1)); cbn;
        eexists; (split; [split; [reflexivity|done]|done]).
    + eexists. split; [split; [reflexivity|done]|done].
Qed.

Lemma turns_S E fuel max_retries attempt resp :
  turns E (S fuel) max_retries attempt resp
  = (let* outcome := turn E max_retries attempt resp in
     match outcome with
     | inl r => ret r
     | inr resp' => turns E fuel max_retries (attempt + 1) resp'
     end).
Proof. reflexivity. Qed.

(** The loop from attempt [a] on, with as many turns left as there are
    attempts left. *)
Lemma turns_outcome E (max_retries : Z) (fuel : nat) :
  forall (a : nat) resp w,
    Z.of_nat a + Z.of_nat (S fuel) = max_retries ->
    exists n w',
      (n <= fuel)%nat /\
      turns E (S fuel) max_retries (Z.of_nat a) resp w
      = (below E (attempts w + n), w') /\
      attempts w' = (attempts w + S n)%nat /\
      (forall i, (i < n)%nat -> retryable (below E (attempts w + i)) = true) /\
      ((n < fuel)%nat -> retryable (below E (attempts w + n)) = false) /\
      slept w' = (slept w ++ delays a (draws w) n)%list.
Proof.
  induction fuel as [|fuel IH]; intros a resp w Hmax.
  - exists 0%nat. rewrite turns_S. unfold bind.
    destruct (turn_outcome E max_retries a resp w) as (w' & Hturn & Hatt).
    assert (Hlast : Z.ltb (Z.of_nat a) (max_retries - 1) = false)
      by (apply Z.ltb_ge; lia).
    rewrite Hlast, andb_false_r in Hturn.
    destruct Hturn as (-> & Hs & _).
    rewrite Nat.add_0_r.
    exists w'. split; [lia|]. split.
    { by destruct (below E (attempts w)). }
    split; [lia|]. split; [intros i Hi; lia|]. split; [lia|].
    by rewrite Hs, app_nil_r.
  - rewrite turns_S. unfold bind.
    destruct (turn_outcome E max_retries a resp w) as (w1 & Hturn & Hatt).
    assert (Hmore : Z.ltb (Z.of_nat a) (max_retries - 1) = true)
      by (apply Z.ltb_lt; lia).
    rewrite Hmore, andb_true_r in Hturn.
    destruct (retryable (below E (attempts w))) eqn:Hretry.
    + destruct Hturn as (-> & Hs & Hd).
      replace (Z.of_nat a + 1) with (Z.of_nat (S a)) by lia.
      match goal with
      | |- context [turns E (S fuel) max_retries (Z.of_nat (S a)) ?r w1] =>
          destruct (IH (S a) r w1) as (n & w' & Hn & Hrun & Ha & Hall & Hstop & Hsl);
            [lia|]
      end.
      exists (S n), w'. split; [lia|]. split.
      { rewrite Hrun, Hatt. f_equal. f_equal. lia. }
      split; [lia|]. split.
      { intros [|i] Hi; [by rewrite Nat.add_0_r|].
        replace (attempts w + S i)%nat with (attempts w1 + i)%nat by lia.
        apply Hall. lia. }
      split.
      { intros Hlt.
        replace (attempts w + S n)%nat with (attempts w1 + n)%nat by lia.
        apply Hstop. lia. }
      rewrite Hsl, Hs, Hd, delays_S, <- app_assoc. done.
    + destruct Hturn as (-> & Hs & Hd).
      exists 0%nat, w1. rewrite Nat.add_0_r. split; [lia|]. split.
      { by destruct (below E (attempts w)). }
      split; [lia|]. split; [intros i Hi; lia|]. split; [done|].
      by rewrite Hs, app_nil_r.
Qed.

(** X23.  [RetryTransport.handle_async_request] with at least one attempt
    allowed hands back the outcome of the last call it made to the
    transport underneath, response or exception, and that call is the
    first whose outcome is not retryable (a 5xx or 429 answer, a connect
    error, a timeout), or the [max_retries]-th when all were.  It makes at
    most [max_retries] calls and sleeps once between two calls, for
    [2 ** attempt] seconds plus the jitter.  With [max_retries] of zero or
    less it makes no call at all and raises the connect error of its last
    lines. *)
Theorem handle_async_request_outcome E (max_retries : Z) (w : world) :
  if Z.leb max_retries 0 then
    handle_async_request E max_retries w
    = (Raise (TransportError "Failed to connect after multiple attempts"), w)
  else
    exists n w',
      (n < Z.to_nat max_retries)%nat /\
      handle_async_request E max_retries w
      = (below E (attempts w + n), w') /\
      attempts w' = (attempts w + S n)%nat /\
      (forall i, (i < n)%nat -> retryable (below E (attempts w + i)) = true) /\
      ((S n < Z.to_nat max_retries)%nat ->
       retryable (below E (attempts w + n)) = false) /\
      slept w' = (slept w ++ delays 0 (draws w) n)%list.
Proof.
  unfold handle_async_request.
  destruct (Z.leb_spec max_retries 0) as [Hle|Hpos].
  - replace (Z.to_nat max_retries) with 0%nat by lia. done.
  - destruct (Z.to_nat max_retries) as [|fuel] eqn:Hfuel; [lia|].
    destruct (turns_outcome E max_retries fuel 0%nat None w)
      as (n & w' & Hn & Hrun & Ha & Hall & Hstop & Hsl); [lia|].
    exists n, w'. split; [lia|]. split; [done|]. split; [done|].
    split; [done|]. split; [|done].
    intros Hlt. apply Hstop. lia.
Qed.

End RetryFacts.
